(** * Support Supervision Maturity Model dashboard: the classification and
      aggregation engine of [dashboard.py]

    A shallow embedding of the pure part of [dashboard.py] (label cleaning,
    theme inference, the dictionary map, the column metadata, the scope
    summary and the facility table), followed by the properties of the
    specification that concern it.

    Conventions of the embedding.
    - A Python [str] is a [string]; each character is one code point below
      256 (the Latin-1 block of Unicode), so the whitespace class and
      [str.lower] below are the ones of CPython restricted to that block.
      The values of [MATURITY_ICONS], to which no string function is
      applied, have code points above that block and are held by their bytes
      in UTF-8.
    - A cell of a table read by [pandas.read_csv] is missing ([NaN]), an
      integer, a finite float, an infinite float or a string.  A finite float
      is held by the rational number it stands for; the arithmetic on floats
      is the one of IEEE 754 binary64: every operation returns the float
      nearest to the exact result, the even one of two that are as near, and
      an infinity beyond the range.  The sign of a zero is not kept.
    - The sum of an array of floats is left to the numeric libraries, which
      add in an order of their own (by blocks, or with a compensation term):
      it is a parameter of the functions that take a mean, and the loop
      [fsum] stands for it in the examples.
    - A Python exception is a value [Raise e] of the result type. *)

From Stdlib Require Import Ascii String ZArith QArith Qround Qabs Qpower Lqa Sorted.
From Stdlib Require Qcanon.
From stdpp Require Import base option list strings gmap pretty.

Close Scope Q_scope.
Open Scope string_scope.

(** ** Python strings *)

Module PyStr.

  (** [Py_UNICODE_ISSPACE] on the code points below 256: the class used both
      by [str.strip] and by the regular-expression escape [\s]. *)
Definition is_space (c : ascii) : bool :=
    let n := N_of_ascii c in
    ((9 <=? n) && (n <=? 13) || (28 <=? n) && (n <=? 32)
     || (n =? 133) || (n =? 160))%N.

  (** [str.lower] on one code point below 256: A-Z, and the Latin-1 capitals
      U+00C0..U+00DE except the multiplication sign U+00D7. *)
Definition lower_char (c : ascii) : ascii :=
    let n := N_of_ascii c in
    if ((65 <=? n) && (n <=? 90)
        || (192 <=? n) && (n <=? 222) && negb (n =? 215))%N
    then ascii_of_N (n + 32) else c.

Fixpoint lower (s : string) : string :=
    match s with
    | EmptyString => EmptyString
    | String c s' => String (lower_char c) (lower s')
    end.

  (** [s.startswith(p)] *)
Fixpoint startswith (p s : string) : bool :=
    match p, s with
    | EmptyString, _ => true
    | String a p', String b s' => if Ascii.eqb a b then startswith p' s' else false
    | String _ _, EmptyString => false
    end.

  (** [needle in hay] *)
Fixpoint contains (needle hay : string) : bool :=
    startswith needle hay ||
    match hay with
    | EmptyString => false
    | String _ hay' => contains needle hay'
    end.

  (** [s.lstrip()], [s.rstrip()] and [s.strip()] *)
Fixpoint lstrip (s : string) : string :=
    match s with
    | EmptyString => EmptyString
    | String c s' => if is_space c then lstrip s' else s
    end.

Fixpoint rstrip (s : string) : string :=
    match s with
    | EmptyString => EmptyString
    | String c s' =>
        match rstrip s' with
        | EmptyString => if is_space c then EmptyString else String c EmptyString
        | r => String c r
        end
    end.

Definition strip (s : string) : string := rstrip (lstrip s).

  (** [s.split(sep)[0]]: the part of [s] before the first occurrence of
      [sep], all of [s] when there is none. *)
Fixpoint split_head (sep s : string) : string :=
    if startswith sep s then EmptyString
    else match s with
         | EmptyString => EmptyString
         | String c s' => String c (split_head sep s')
         end.

  (** Does a [>] occur in [s] before the end of the line?  This decides
      whether the pattern [<.*?>] matches at a [<] that [s] follows: the dot
      of [re] matches every character but the line feed. *)
Fixpoint closes (s : string) : bool :=
    match s with
    | EmptyString => false
    | String c s' =>
        if Ascii.eqb c ">" then true
        else if Ascii.eqb c "010" then false
        else closes s'
    end.

  (** [re.sub("<.*?>", "", s)]: a left-to-right scan; [in_tag] says that the
      scan is inside a match, whose first [>] ends it. *)
Fixpoint sub_tags_from (in_tag : bool) (s : string) : string :=
    match s with
    | EmptyString => EmptyString
    | String c s' =>
        if in_tag then sub_tags_from (negb (Ascii.eqb c ">")) s'
        else if Ascii.eqb c "<" && closes s' then sub_tags_from true s'
        else String c (sub_tags_from false s')
    end.

Definition sub_tags (s : string) : string := sub_tags_from false s.

  (** [re.sub(r"\s+", " ", s)]: [in_run] says that the previous character
      was whitespace, already replaced by the one space of its run. *)
Fixpoint sub_spaces_from (in_run : bool) (s : string) : string :=
    match s with
    | EmptyString => EmptyString
    | String c s' =>
        if is_space c then
          if in_run then sub_spaces_from true s'
          else String " " (sub_spaces_from true s')
        else String c (sub_spaces_from false s')
    end.

Definition sub_spaces (s : string) : string := sub_spaces_from false s.

End PyStr.

(** ** Helpers of [dashboard.py] *)

(** [clean_label]: [None] is the missing label ([pd.isna]). *)
Definition clean_label (s : option string) : option string :=
  match s with
  | None => None
  | Some s => Some (PyStr.strip (PyStr.sub_spaces (PyStr.sub_tags s)))
  end.

(** [infer_theme]: [None] as argument is a value that is not a [str] (the
    float NaN of an empty dictionary cell). *)
Definition infer_theme (var_name : option string) : option string :=
  match var_name with
  | None => None
  | Some v =>
      if PyStr.startswith "sd_" v then Some "Service Delivery"
      else if PyStr.startswith "cc_" v then Some "Logistics & Cold Chain"
      else if PyStr.startswith "dq_" v then Some "Data Quality"
      else if PyStr.startswith "cl_" v then Some "Community Linkage"
      else if PyStr.startswith "hr_" v then Some "HRH"
      else if PyStr.startswith "ss_" v then Some "Support Supervision"
      else if PyStr.contains "maturity" (PyStr.lower v)
              || PyStr.contains "score_pct" (PyStr.lower v)
      then Some "Summary"
      else None
  end.

(** ** Exceptions *)

Inductive exn : Type :=
| KeyError (key : string)
| ValueError
| TypeError
| OverflowError.

Inductive result (A : Type) : Type :=
| Ok (a : A)
| Raise (e : exn).
Arguments Ok {A} a.
Arguments Raise {A} e.

#[global] Instance result_ret : MRet result := fun A a => Ok a.
#[global] Instance result_bind : MBind result := fun A B k r =>
  match r with
  | Ok a => k a
  | Raise e => Raise e
  end.
#[global] Instance result_fmap : FMap result := fun A B f r =>
  match r with
  | Ok a => Ok (f a)
  | Raise e => Raise e
  end.

(** [d[k]] on a dictionary literal, kept as the list of its items. *)
Fixpoint dict_getitem (d : list (string * string)) (k : string) : result string :=
  match d with
  | [] => Raise (KeyError k)
  | (k', v) :: d' => if String.eqb k' k then Ok v else dict_getitem d' k
  end.

(** ** Configuration *)

Definition FACILITY_COL : string := "Select the Facility Being Supervised".
Definition COUNTY_COL : string := "County".
Definition SUBCOUNTY_COL : string := "Subcounty".
Definition OVERALL_MATURITY_COL : string := "Overall Maturity (1=Bronze, 2=Silver, 3=Gold)".
Definition OVERALL_SCORE_COL : string := "Overall Total Score (%)".

Definition THEME_SCORE_COLS : list (string * string) :=
  [ ("Summary", OVERALL_SCORE_COL);
    ("Service Delivery", "Service Delivery Score (%)");
    ("Logistics and Cold Chain", "Cold Chain & Logistics Score (%)");
    ("Data Quality", "Data Quality & Reporting Score (%)");
    ("Community Linkage", "Community Linkages Score (%)");
    ("HRH", "Human Resources & Training Score (%)");
    ("Support Supervision", "Support Supervision Score (%)") ].

Definition THEME_MATURITY_COLS : list (string * string) :=
  [ ("Summary", OVERALL_MATURITY_COL);
    ("Service Delivery", "Service Delivery Maturity (1=Bronze, 2=Silver, 3=Gold)");
    ("Logistics and Cold Chain", "Cold Chain & Logistics Maturity (1=Bronze, 2=Silver, 3=Gold)");
    ("Data Quality", "Data Quality & Reporting Maturity (1=Bronze, 2=Silver, 3=Gold)");
    ("Community Linkage", "Community Linkages Maturity (1=Bronze, 2=Silver, 3=Gold)");
    ("HRH", "Human Resources & Training Maturity (1=Bronze, 2=Silver, 3=Gold)");
    ("Support Supervision", "Support Supervision Maturity (1=Bronze, 2=Silver, 3=Gold)") ].

Definition MATURITY_ICONS : list (string * string) :=
  [ ("Bronze", "ðŸ¥‰ Bronze");
    ("Silver", "ðŸ¥ˆ Silver");
    ("Gold", "ðŸ¥‡ Gold") ].

(** ** [load_data]: the dictionary map and the column metadata *)

(** One row of the data dictionary: the cells of its columns
    "Variable / Field Name", "Field Label" and "Field Type", each a string or
    missing. *)
Record DictionaryEntry : Type := {
  dd_variable_name : option string;
  dd_field_label : option string;
  dd_field_type : option string
}.

(** A value of [dd_map]: the dictionary ["Field Type": .., "Theme": ..]. *)
Record DDInfo : Type := {
  info_field_type : option string;
  info_theme : option string
}.

#[global] Instance DDInfo_eq_dec : EqDecision DDInfo.
Proof. solve_decision. Defined.

(** [dd.set_index("label_clean")[["Field Type", "Theme"]]], with the columns
    [label_clean] and [Theme] that [load_data] adds first. *)
Definition dd_indexed (dd : list DictionaryEntry) : list (option string * DDInfo) :=
  map (fun e => (clean_label (dd_field_label e),
                 {| info_field_type := dd_field_type e;
                    info_theme := infer_theme (dd_variable_name e) |})) dd.

(** [.dropna(how="all")]: a row goes when both its cells are missing. *)
Definition dropna_all (l : list (option string * DDInfo)) : list (option string * DDInfo) :=
  List.filter (fun r => bool_decide (is_Some (info_field_type r.2))
                        || bool_decide (is_Some (info_theme r.2))) l.

(** [.to_dict(orient="index")]: pandas refuses an index that holds a label
    twice ("DataFrame index must be unique for orient='index'"); otherwise
    the dictionary has one item per row, keyed by the index label. *)
Definition to_dict_index (l : list (option string * DDInfo)) :
    result (gmap (option string) DDInfo) :=
  if decide (NoDup l.*1) then Ok (list_to_map l) else Raise ValueError.

Definition build_dd_map (dd : list DictionaryEntry) :
    result (gmap (option string) DDInfo) :=
  to_dict_index (dropna_all (dd_indexed dd)).

Record ColumnMeta : Type := {
  column : string;
  base_label : string;
  field_type : option string;
  theme : option string;
  is_categorical : bool;
  is_open_ended : bool
}.

Definition ADMIN_COLS : list string :=
  [ COUNTY_COL; FACILITY_COL; SUBCOUNTY_COL; "Unnamed: 0"; "Survey Identifier";
    "Survey Timestamp"; "Please enter your initials as the data collector";
    "Date of data collection" ].

(** [x in [..]] for an optional string and a list of strings. *)
Definition opt_in (x : option string) (l : list string) : bool :=
  match x with
  | Some s => bool_decide (s ∈ l)
  | None => false
  end.

(** [dd_map.get(base) or dd_map.get(col)]: every value of [dd_map] is a
    dictionary of two items, hence true. *)
Definition lookup_info (dd_map : gmap (option string) DDInfo) (base col : string) :
    option DDInfo :=
  match dd_map !! Some base with
  | Some i => Some i
  | None => dd_map !! Some col
  end.

(** The body of the loop of [load_data] for one retained column. *)
Definition column_meta (dd_map : gmap (option string) DDInfo) (col : string) : ColumnMeta :=
  let base := PyStr.strip (PyStr.split_head "(choice=" col) in
  let info := lookup_info dd_map base col in
  let ft := match info with Some i => info_field_type i | None => None end in
  let th := match info with Some i => info_theme i | None => None end in
  {| column := col;
     base_label := base;
     field_type := ft;
     theme := th;
     is_categorical := opt_in ft ["yesno"; "radio"; "dropdown"; "checkbox"];
     is_open_ended := opt_in ft ["text"; "notes"] |}.

Definition build_meta (dd_map : gmap (option string) DDInfo) (cols : list string) :
    list ColumnMeta :=
  map (column_meta dd_map)
      (List.filter (fun c => negb (bool_decide (c ∈ ADMIN_COLS))) cols).

(** [load_data], from the column names of the data file and the rows of the
    dictionary file to the table [meta]. *)
Definition load_data (df_columns : list string) (dd : list DictionaryEntry) :
    result (list ColumnMeta) :=
  dd_map ← build_dd_map dd;
  mret (build_meta dd_map df_columns).

(** ** Floats *)

(** [round(x)] of Python on a finite float: the nearest integer, the even
    one of the two when [x] is halfway. *)
Definition py_round (x : Q) : Z :=
  let f := Qfloor x in
  match Qcompare (x - inject_Z f) (1 # 2) with
  | Lt => f
  | Gt => (f + 1)%Z
  | Eq => if Z.even f then f else (f + 1)%Z
  end.

(** A float of binary64: a finite number, an infinity of either sign, or the
    value that is not a number. *)
Inductive float : Type :=
| Finite (q : Q)
| Infinite (neg : bool)
| Nan.

Definition is_nan (x : float) : bool :=
  match x with
  | Nan => true
  | _ => false
  end.

(** Two floats that stand for the same value. *)
Definition feq (x y : float) : Prop :=
  match x, y with
  | Finite a, Finite b => Qeq a b
  | Infinite s, Infinite t => s = t
  | Nan, Nan => True
  | _, _ => False
  end.

Definition pow2 (e : Z) : Q := Qpower 2 e.

(** The integer [l] with [2 ** l <= q < 2 ** (l + 1)], for a positive [q]. *)
Definition ilog2 (q : Q) : Z :=
  let l := (Z.log2 (Qnum q) - Z.log2 (Zpos (Qden q)))%Z in
  if Qle_bool (pow2 l) q then l else (l - 1)%Z.

(** The rounding of binary64: the float nearest to the real number [q], the
    one of even significand of two that are as near.  The floats around [q]
    are the multiples of [2 ** e], where the significand has 53 bits and [e]
    is at least -1074; a result of magnitude [2 ** 1024] is an overflow. *)
Definition b64 (q : Q) : float :=
  let q := Qred q in
  if Qeq_bool q 0 then Finite 0
  else
    let e := Z.max (ilog2 (Qabs q) - 52) (-1074) in
    let r := Qred (inject_Z (py_round (q / pow2 e)) * pow2 e) in
    if Qle_bool (pow2 1024) (Qabs r) then Infinite (Qnum r <? 0)%Z
    else Finite r.

(** [x + y] and [x / y] on floats. *)
Definition fadd (x y : float) : float :=
  match x, y with
  | Finite a, Finite b => b64 (a + b)
  | Infinite s, Infinite t => if Bool.eqb s t then Infinite s else Nan
  | Infinite s, Finite _ | Finite _, Infinite s => Infinite s
  | _, _ => Nan
  end.

Definition fdiv (x y : float) : float :=
  match x, y with
  | Finite a, Finite b =>
      if Qeq_bool b 0
      then if Qeq_bool a 0 then Nan else Infinite (Qnum a <? 0)%Z
      else b64 (a / b)
  | Finite _, Infinite _ => Finite 0
  | Infinite s, Finite b => Infinite (xorb s (Qnum b <? 0)%Z)
  | _, _ => Nan
  end.

(** [x <= y] on floats. *)
Definition fle (x y : float) : bool :=
  match x, y with
  | Finite a, Finite b => Qle_bool a b
  | Infinite true, Finite _ | Infinite true, Infinite _ => true
  | Finite _, Infinite false | Infinite false, Infinite false => true
  | _, _ => false
  end.

(** A sum by a loop over the array, each addition rounded: the sum that
    stands for the one of the libraries in the examples. *)
Definition fsum (l : list float) : float := foldl fadd (Finite 0) l.

(** [mean] of pandas on an array of floats whose sum [sum] computes: the
    values that are not a number are skipped ([skipna=True]), the sum of the
    others is divided by their number (a float, as every count below
    [2 ** 53]), and no value gives no number. *)
Definition mean (sum : list float -> float) (s : list float) : float :=
  match List.filter (fun x => negb (is_nan x)) s with
  | [] => Nan
  | xs => fdiv (sum xs) (Finite (inject_Z (Z.of_nat (length xs))))
  end.

(** A sum is exact on integers: where the floats [xs] stand for the
    integers [zs] and the absolute values of these add up to less than
    [2 ** 53], so that no addition of them rounds in whatever order, the sum
    of [xs] stands for the sum of [zs]. *)
Definition exact_on_integers (sum : list float -> float) : Prop :=
  forall xs zs,
    Forall2 (fun x z => feq x (Finite (inject_Z z))) xs zs ->
    (foldr Z.add 0%Z (map Z.abs zs) < 2 ^ 53)%Z ->
    feq (sum xs) (Finite (inject_Z (foldr Z.add 0%Z zs))).

(** [round(x)] on a float: an infinity and the value that is not a number
    have no integer. *)
Definition round_float (x : float) : result Z :=
  match x with
  | Finite q => Ok (py_round q)
  | Infinite _ => Raise OverflowError
  | Nan => Raise ValueError
  end.

(** ** Tables *)

Inductive cell : Type :=
| NaN
| Int (z : Z)
| Float (q : Q)
| Str (s : string)
| Inf (neg : bool).

(** [pd.isna] *)
Definition isna (c : cell) : bool :=
  match c with
  | NaN => true
  | _ => false
  end.

Definition is_str (c : cell) : bool :=
  match c with
  | Str _ => true
  | _ => false
  end.

(** The number a cell with a finite number holds. *)
Definition cell_num (c : cell) : option Q :=
  match c with
  | Int z => Some (inject_Z z)
  | Float q => Some q
  | _ => None
  end.

(** The value of a cell that holds a number, finite or not. *)
Definition cell_value (c : cell) : option float :=
  match c with
  | Int z => Some (Finite (inject_Z z))
  | Float q => Some (Finite q)
  | Inf s => Some (Infinite s)
  | _ => None
  end.

(** [float(x)] on a cell that holds no string: an integer is rounded to the
    nearest float. *)
Definition to_float (c : cell) : option float :=
  match c with
  | NaN => Some Nan
  | Int z => Some (b64 (inject_Z z))
  | Float q => Some (Finite q)
  | Inf s => Some (Infinite s)
  | Str _ => None
  end.

(** A float as the cell of a column. *)
Definition of_float (x : float) : cell :=
  match x with
  | Finite q => Float q
  | Infinite s => Inf s
  | Nan => NaN
  end.

(** [==] on two cells; a missing cell equals nothing. *)
Definition cell_eqb (a b : cell) : bool :=
  match a, b with
  | Str s, Str t => String.eqb s t
  | Inf s, Inf t => Bool.eqb s t
  | Str _, _ | _, Str _ | Inf _, _ | _, Inf _ => false
  | _, _ =>
      match cell_num a, cell_num b with
      | Some x, Some y => Qeq_bool x y
      | _, _ => false
      end
  end.

(** The cells [cs] hold the integers [zs], as integers or as floats. *)
Definition holds_integers (cs : list cell) (zs : list Z) : Prop :=
  Forall2 (fun c z => cell_eqb c (Int z) = true) cs zs.

(** A row maps a column name to its cell; a frame is its column names and
    its rows, of which it owns the cells under its column names. *)
Record DataFrame : Type := {
  columns : list string;
  rows : list (gmap string cell)
}.

Definition cell_at (r : gmap string cell) (c : string) : cell := default NaN (r !! c).

(** [series.dropna()] *)
Definition dropna (s : list cell) : list cell :=
  List.filter (fun c => negb (isna c)) s.

(** [df[c]] for one column name. *)
Definition getitem (df : DataFrame) (c : string) : result (list cell) :=
  if decide (c ∈ columns df) then Ok (map (fun r => cell_at r c) (rows df))
  else Raise (KeyError c).

(** [df[cols]] for a list of column names. *)
Definition select (df : DataFrame) (cols : list string) : result DataFrame :=
  match List.find (fun c => negb (bool_decide (c ∈ columns df))) cols with
  | Some c => Raise (KeyError c)
  | None => Ok {| columns := cols; rows := rows df |}
  end.

(** [df[df[c] == v]] for a string [v]. *)
Definition filter_eq (df : DataFrame) (c v : string) : result DataFrame :=
  if decide (c ∈ columns df)
  then Ok {| columns := columns df;
             rows := List.filter (fun r => cell_eqb (cell_at r c) (Str v)) (rows df) |}
  else Raise (KeyError c).

(** [df.dropna(subset=[c])] *)
Definition dropna_subset (df : DataFrame) (c : string) : result DataFrame :=
  if decide (c ∈ columns df)
  then Ok {| columns := columns df;
             rows := List.filter (fun r => negb (isna (cell_at r c))) (rows df) |}
  else Raise (KeyError c).

(** [df[c] = vals] *)
Definition assign (df : DataFrame) (c : string) (vals : list cell) : DataFrame :=
  {| columns := if decide (c ∈ columns df) then columns df else columns df ++ [c];
     rows := zip_with (fun r v => <[c := v]> r) (rows df) vals |}.

Definition group_key (keys : list string) (r : gmap string cell) : list cell :=
  map (cell_at r) keys.

Definition key_complete (k : list cell) : bool := forallb (fun c => negb (isna c)) k.

Fixpoint key_eqb (k1 k2 : list cell) : bool :=
  match k1, k2 with
  | [], [] => true
  | a :: k1', b :: k2' => cell_eqb a b && key_eqb k1' k2'
  | _, _ => false
  end.

(** The elements of a list, each once up to [eqb], in the order of their
    first occurrence. *)
Fixpoint distinct_by {A : Type} (eqb : A -> A -> bool) (l : list A) : list A :=
  match l with
  | [] => []
  | k :: l' => k :: List.filter (fun k' => negb (eqb k k')) (distinct_by eqb l')
  end.

Definition distinct_keys (l : list (list cell)) : list (list cell) :=
  distinct_by key_eqb l.

(** A stable insertion sort: [le a b] says that [a] may stand before [b]. *)
Fixpoint insert_by {A : Type} (le : A -> A -> bool) (x : A) (l : list A) : list A :=
  match l with
  | [] => [x]
  | y :: l' => if le x y then x :: y :: l' else y :: insert_by le x l'
  end.

Definition sort_by {A : Type} (le : A -> A -> bool) (l : list A) : list A :=
  foldr (insert_by le) [] l.

(** The rows of a group, and the row of the result that stands for it. *)
Definition group_rows (keys : list string) (k : list cell) (rs : list (gmap string cell)) :
    list (gmap string cell) :=
  List.filter (fun r => key_eqb k (group_key keys r)) rs.

Definition group_row (keys : list string) (s : string) (k : list cell) (m : cell) :
    gmap string cell :=
  <[s := m]> (list_to_map (zip keys k)).

(** [df.rename(columns={old: new})] *)
Definition rename (df : DataFrame) (old new : string) : DataFrame :=
  if decide (old ∈ columns df)
  then {| columns := map (fun c => if String.eqb c old then new else c) (columns df);
          rows := map (fun r => <[new := cell_at r old]> (delete old r)) (rows df) |}
  else df.

(** The order of [sort_values(c, ascending=False)] on two cells: the larger
    number first, the missing cells last. *)
Definition desc_le (a b : cell) : bool :=
  match cell_value a, cell_value b with
  | Some x, Some y => fle y x
  | Some _, None => true
  | None, Some _ => false
  | None, None => true
  end.

(** [df.sort_values(c, ascending=False)], as a stable sort: the order pandas
    gives to rows of equal value is not fixed by its default sort, and no
    property below depends on it. *)
Definition sort_values_desc (df : DataFrame) (c : string) : DataFrame :=
  {| columns := columns df;
     rows := sort_by (fun r r' => desc_le (cell_at r c) (cell_at r' c)) (rows df) |}.

(** ** The maturity aggregator *)

(** [maturity_label]: the keys [1] and [1.0] of the literal are one key. *)
Definition maturity_label (x : cell) : option string :=
  if cell_eqb x (Int 1) then Some "Bronze"
  else if cell_eqb x (Int 2) then Some "Silver"
  else if cell_eqb x (Int 3) then Some "Gold"
  else None.

(** A tier as the cell of a column: [None] is a missing cell there. *)
Definition tier_cell (t : option string) : cell :=
  match t with
  | Some s => Str s
  | None => NaN
  end.

(** [MATURITY_ICONS.get(x)] on the cell of a tier. *)
Definition maturity_icon (x : cell) : cell :=
  match x with
  | Str t => match dict_getitem MATURITY_ICONS t with
             | Ok icon => Str icon
             | Raise _ => NaN
             end
  | _ => NaN
  end.

Record ScopeSummary : Type := {
  score : option float;
  maturity : option string
}.

Section Aggregator.

(** [float(s)] of Python on a string, [None] when it raises. *)
Variable float_of_str : string -> option float.

(** [values.sum()] of numpy on an array of floats. *)
Variable array_sum : list float -> float.

(** [series.mean()] on a series without missing cells: a string makes the
    series one of objects, which has no mean. *)
Definition series_mean (s : list cell) : result float :=
  if existsb is_str s then Raise TypeError
  else Ok (mean array_sum (omap to_float s)).

(** [series.astype(float)] *)
Definition astype_float (s : list cell) : result (list float) :=
  mapM (fun c => match c with
                 | Str t => match float_of_str t with
                            | Some x => Ok x
                            | None => Raise ValueError
                            end
                 | NaN => Ok Nan
                 | Int z => Ok (b64 (inject_Z z))
                 | Float q => Ok (Finite q)
                 | Inf s => Ok (Infinite s)
                 end) s.

(** [render_scope_summary], up to the markup it writes: the score and the
    tier that the banner shows. *)
Definition render_scope_summary (score_series mat_series : list cell) : result ScopeSummary :=
  sc ← match dropna score_series with
       | [] => Ok None
       | s => Some <$> series_mean s
       end;
  mt ← match dropna mat_series with
       | [] => Ok None
       | m => fs ← astype_float m;
              z ← round_float (mean array_sum fs);
              Ok (maturity_label (Int z))
       end;
  mret {| score := sc; maturity := mt |}.

(** [show_theme_summary_banner]: the summary of the county banner and, when a
    subcounty is selected and the frame has the column, the one of the
    subcounty banner. *)
Definition show_theme_summary_banner (df : DataFrame) (theme county subcounty : string) :
    result (ScopeSummary * option ScopeSummary) :=
  s_col ← dict_getitem THEME_SCORE_COLS theme;
  m_col ← dict_getitem THEME_MATURITY_COLS theme;
  dfc ← (if String.eqb county "All" then Ok df else filter_eq df COUNTY_COL county);
  ss ← getitem dfc s_col;
  ms ← getitem dfc m_col;
  c1 ← render_scope_summary ss ms;
  c2 ← (if negb (String.eqb subcounty "All") && bool_decide (SUBCOUNTY_COL ∈ columns df)
        then dfs ← filter_eq df SUBCOUNTY_COL subcounty;
             ss ← getitem dfs s_col;
             ms ← getitem dfs m_col;
             Some <$> render_scope_summary ss ms
        else Ok None);
  mret (c1, c2).

End Aggregator.

(** [[c for c in l if c in df.columns]] *)
Definition present (df : DataFrame) (l : list string) : list string :=
  List.filter (fun c => bool_decide (c ∈ columns df)) l.

Section FacilityTable.

(** The sum of the cells of a group as [groupby(..).mean()] computes it. *)
Variable group_sum : list float -> float.

(** The mean of a group of [groupby(..)[s].mean()]: missing cells are
    skipped, and a group with no other cell has a missing mean. *)
Definition group_mean (s : list cell) : cell :=
  of_float (mean group_sum (omap to_float s)).

(** [df.groupby(keys, as_index=False)[s].mean()] with the defaults of pandas:
    a row with a missing key cell is in no group ([dropna=True]).  The groups
    are listed in the order of their first row; pandas lists them by key, a
    difference that the sort of [facility_maturity_table] leaves visible
    among groups of equal mean only. *)
Definition groupby_mean (df : DataFrame) (keys : list string) (s : string) : result DataFrame :=
  if decide (s ∈ columns df) then
    if existsb (fun r => is_str (cell_at r s)) (rows df) then Raise TypeError
    else
      let rs := List.filter (fun r => key_complete (group_key keys r)) (rows df) in
      Ok {| columns := keys ++ [s];
            rows := map (fun k => group_row keys s k
                                    (group_mean (map (fun r => cell_at r s) (group_rows keys k rs))))
                        (distinct_keys (map (group_key keys) rs)) |}
  else Raise (KeyError s).

(** [facility_maturity_table] *)
Definition facility_maturity_table (df : DataFrame) (theme : string) : result DataFrame :=
  s_col ← dict_getitem THEME_SCORE_COLS theme;
  m_col ← dict_getitem THEME_MATURITY_COLS theme;
  let cols := present df [COUNTY_COL; SUBCOUNTY_COL; FACILITY_COL; s_col; m_col] in
  sel ← select df cols;
  tmp ← dropna_subset sel m_col;
  ms ← getitem tmp m_col;
  let tmp := assign tmp "Maturity Category" (map (fun x => tier_cell (maturity_label x)) ms) in
  let keys := present tmp [COUNTY_COL; SUBCOUNTY_COL; FACILITY_COL; "Maturity Category"] in
  agg ← groupby_mean tmp keys s_col;
  let agg := rename agg s_col "Score (%)" in
  cats ← getitem agg "Maturity Category";
  let agg := assign agg "Maturity" (map maturity_icon cats) in
  mret (sort_values_desc agg "Score (%)").

End FacilityTable.

(** ** The chart of a categorical column *)

Section Chart.

(** [str(x)] of Python on a finite float. *)
Variable float_repr : Q -> string.

(** [str(resp)] on a cell: the string itself, the decimal digits of an
    integer, the text of a float. *)
Definition py_str (c : cell) : string :=
  match c with
  | Str s => s
  | Int z => pretty z
  | Float q => float_repr q
  | NaN => "nan"
  | Inf s => if s then "-inf" else "inf"
  end.

(** [normalize], the local function of [show_categorical_chart]; the result
    [None] is Python's. *)
Definition normalize (resp : cell) : option cell :=
  if isna resp then None
  else
    let s := PyStr.lower (PyStr.strip (py_str resp)) in
    if bool_decide (s ∈ ["yes"; "y"; "1"]) then Some (Str "Yes")
    else if bool_decide (s ∈ ["no"; "n"; "0"]) then Some (Str "No")
    else if String.eqb s "" then None
    else Some resp.

(** [series.value_counts()] with the defaults of pandas: the missing values
    are not counted ([dropna=True]) and the most frequent value comes
    first. *)
Definition value_counts (s : list (option cell)) : list (cell * nat) :=
  let vals := omap id s in
  sort_by (fun a b => Nat.leb b.2 a.2)
    (map (fun v => (v, length (List.filter (cell_eqb v) vals)))
         (distinct_by cell_eqb vals)).

(** [show_categorical_chart], up to the drawing: the table [counts] that the
    pie chart shows, [None] when the function writes a notice instead. *)
Definition show_categorical_chart (df : DataFrame) (col : string) :
    result (option (list (cell * nat))) :=
  series ← dropna <$> getitem df col;
  match series with
  | [] => mret None
  | _ =>
      let counts := value_counts (map normalize series) in
      let counts := List.filter (fun lc => negb (isna lc.1)) counts in
      match counts with
      | [] => mret None
      | _ => mret (Some counts)
      end
  end.

End Chart.

(** ** The theme classifier as the specification words it

    An ordered table of prefixes, tried in order, the first match winning;
    then the two keywords, whatever the case of their letters. *)

Definition PREFIX_THEMES : list (string * string) :=
  [ ("sd_", "Service Delivery"); ("cc_", "Logistics & Cold Chain");
    ("dq_", "Data Quality"); ("cl_", "Community Linkage"); ("hr_", "HRH");
    ("ss_", "Support Supervision") ].

Definition first_prefix_theme (v : string) : option string :=
  snd <$> List.find (fun pt => PyStr.startswith pt.1 v) PREFIX_THEMES.

(** [a] is the character [b] of a keyword, or the capital letter of it. *)
Definition same_letter (a b : ascii) : Prop :=
  a = b
  \/ ((65 <= N_of_ascii a)%N /\ (N_of_ascii a <= 90)%N
      /\ N_of_ascii b = (N_of_ascii a + 32)%N).

(** [w] spells the keyword [kw], letter by letter, in whatever case. *)
Fixpoint spells (kw w : string) : Prop :=
  match kw, w with
  | EmptyString, EmptyString => True
  | String b kw', String a w' => same_letter a b /\ spells kw' w'
  | _, _ => False
  end.

(** The keyword [kw] occurs in [v], in whatever case. *)
Definition occurs_ci (kw v : string) : Prop :=
  exists pre w post, v = pre ++ w ++ post /\ spells kw w.

(** The characters of the two keywords: small letters and the underscore. *)
Definition keyword_char (b : ascii) : bool :=
  ((97 <=? N_of_ascii b) && (N_of_ascii b <=? 122) || (N_of_ascii b =? 95))%N.

Fixpoint keyword (kw : string) : bool :=
  match kw with
  | EmptyString => true
  | String b kw' => keyword_char b && keyword kw'
  end.

(** ** The dictionary map as the specification words it

    An ordered overwrite: the rows in table order, a later row replacing an
    earlier one of the same label. *)

Definition dd_map_last_wins (l : list (option string * DDInfo)) :
    gmap (option string) DDInfo :=
  foldl (fun m r => <[r.1 := r.2]> m) ∅ l.

(** ** Sample inputs *)

(** Two dictionary rows whose labels clean to the same text. *)
Definition dup_dict : list DictionaryEntry :=
  [ {| dd_variable_name := Some "cc_fridge";
       dd_field_label := Some "Fridge";
       dd_field_type := Some "yesno" |};
    {| dd_variable_name := Some "sd_fridge";
       dd_field_label := Some "<b>Fridge</b>";
       dd_field_type := Some "text" |} ].

(** A one-row dictionary for the column "cc_fridge_temp (choice=Yes)": the
    label is the base label of the column, the variable name is [v]. *)
Definition fridge_dict (v : string) : list DictionaryEntry :=
  [ {| dd_variable_name := Some v;
       dd_field_label := Some "cc_fridge_temp";
       dd_field_type := Some "yesno" |} ].

Definition fridge_col : string := "cc_fridge_temp (choice=Yes)".

(** The floats of binary64 nearest to 1.8 and to 2.7. *)
Definition double_1_8 : Q := Qmake 8106479329266893 4503599627370496.
Definition double_2_7 : Q := Qmake 3039929748475085 1125899906842624.

(** A frame without the score column of the theme "Summary", and one
    without any row. *)
Definition no_score_frame : DataFrame :=
  {| columns := [COUNTY_COL; FACILITY_COL; OVERALL_MATURITY_COL];
     rows := [ list_to_map [ (COUNTY_COL, Str "Embu"); (FACILITY_COL, Str "F1");
                             (OVERALL_MATURITY_COL, Int 2) ] ] |}.

Definition empty_frame : DataFrame :=
  {| columns := [COUNTY_COL; FACILITY_COL; OVERALL_SCORE_COL; OVERALL_MATURITY_COL];
     rows := [] |}.

(** ** The facility table as the specification words it

    The rows that have a maturity value, each with its tier; the group of a
    row: its county, its subcounty and its facility, as far as the frame has
    these columns, and its tier. *)

Definition tiered_rows (df : DataFrame) (m : string) : list (gmap string cell) :=
  map (fun r => <["Maturity Category" := tier_cell (maturity_label (cell_at r m))]> r)
      (List.filter (fun r => negb (isna (cell_at r m))) (rows df)).

Definition facility_keys (df : DataFrame) : list string :=
  present df [COUNTY_COL; SUBCOUNTY_COL; FACILITY_COL] ++ ["Maturity Category"].

Definition facility_key (df : DataFrame) (m : string) (r : gmap string cell) : list cell :=
  map (cell_at r) (present df [COUNTY_COL; SUBCOUNTY_COL; FACILITY_COL])
  ++ [tier_cell (maturity_label (cell_at r m))].

(** The rows of the group of key [k]. *)
Definition facility_members (df : DataFrame) (m : string) (k : list cell) :
    list (gmap string cell) :=
  List.filter (fun r => negb (isna (cell_at r m)) && key_eqb k (facility_key df m r))
              (rows df).

(** ** Clean labels as the specification words them

    No angle-bracket markup, no whitespace run, no whitespace at either
    end.  A whitespace run is read as the pattern of [clean_label] reads it:
    any whitespace other than one space character on its own. *)

Fixpoint has_char (a : ascii) (s : string) : bool :=
  match s with
  | EmptyString => false
  | String c s' => Ascii.eqb c a || has_char a s'
  end.

(** Some [<] has a [>] after it on its line: the pattern [<.*?>] matches. *)
Fixpoint has_markup (s : string) : bool :=
  match s with
  | EmptyString => false
  | String c s' => Ascii.eqb c "<" && PyStr.closes s' || has_markup s'
  end.

(** Some [<] has a [>] after it, on its line or not. *)
Fixpoint lt_then_gt (s : string) : bool :=
  match s with
  | EmptyString => false
  | String c s' => Ascii.eqb c "<" && has_char ">" s' || lt_then_gt s'
  end.

Definition starts_space (s : string) : bool :=
  match s with
  | EmptyString => false
  | String c _ => PyStr.is_space c
  end.

Fixpoint ends_space (s : string) : bool :=
  match s with
  | EmptyString => false
  | String c EmptyString => PyStr.is_space c
  | String _ s' => ends_space s'
  end.

Fixpoint single_spaced (s : string) : bool :=
  match s with
  | EmptyString => true
  | String c s' =>
      (if PyStr.is_space c then Ascii.eqb c " " && negb (starts_space s') else true)
      && single_spaced s'
  end.

Definition is_clean (s : string) : bool :=
  negb (has_markup s) && single_spaced s && negb (starts_space s) && negb (ends_space s).

(** The label "<", line feed, ">", and a label whose first tag has a line
    feed between its name and its attribute. *)
Definition broken_tag : string := String "<" (String "010" (String ">" EmptyString)).

Definition multiline_tag : string := "<div" +:+ String "010" "id=x>Fridge</div>".

(** [thin s t]: [t] is [s] with some whitespace characters dropped and
    others turned into a space. *)
Inductive thin : string -> string -> Prop :=
| thin_nil : thin "" ""
| thin_keep c s t : thin s t -> thin (String c s) (String c t)
| thin_drop c s t : PyStr.is_space c = true -> thin s t -> thin (String c s) t
| thin_space c s t : PyStr.is_space c = true -> thin s t -> thin (String c s) (String " " t).

(** The keys of the groups: those of the rows that have a maturity value
    and no missing key cell, each once. *)
Definition facility_group_keys (df : DataFrame) (m : string) : list (list cell) :=
  distinct_keys
    (map (facility_key df m)
       (List.filter (fun r => negb (isna (cell_at r m))
                              && key_complete (facility_key df m r)) (rows df))).

(** The row of the table for the group of key [k] and of mean score [mn]. *)
Definition facility_row (df : DataFrame) (s : string) (k : list cell) (mn : cell) :
    gmap string cell :=
  let r := <["Score (%)" := mn]> (delete s (group_row (facility_keys df) s k mn)) in
  <["Maturity" := maturity_icon (cell_at r "Maturity Category")]> r.

(** A frame of three facilities, for the theme "Summary". *)
Definition sample_frame : DataFrame :=
  {| columns := [COUNTY_COL; FACILITY_COL; OVERALL_SCORE_COL; OVERALL_MATURITY_COL];
     rows := [ list_to_map [ (COUNTY_COL, Str "Embu"); (FACILITY_COL, Str "F1");
                             (OVERALL_SCORE_COL, Float (60 # 1));
                             (OVERALL_MATURITY_COL, Int 2) ];
               list_to_map [ (COUNTY_COL, Str "Embu"); (FACILITY_COL, Str "F2");
                             (OVERALL_SCORE_COL, Float (85 # 1));
                             (OVERALL_MATURITY_COL, Int 3) ];
               list_to_map [ (COUNTY_COL, Str "Kwale"); (FACILITY_COL, Str "F3");
                             (OVERALL_SCORE_COL, NaN);
                             (OVERALL_MATURITY_COL, Int 1) ] ] |}.




(** ** The scope filter *)

(** [filter_data]: the three selections narrow the frame in turn; "All"
    leaves it as it is, and so does a subcounty on a frame that has no
    subcounty column. *)
Definition filter_data (df : DataFrame) (county subcounty facility : string) :
    result DataFrame :=
  df1 ← (if negb (String.eqb county "All") then filter_eq df COUNTY_COL county
         else Ok df);
  df2 ← (if bool_decide (SUBCOUNTY_COL ∈ columns df1) && negb (String.eqb subcounty "All")
         then filter_eq df1 SUBCOUNTY_COL subcounty
         else Ok df1);
  if negb (String.eqb facility "All") then filter_eq df2 FACILITY_COL facility
  else Ok df2.

(** What one selection asks of a row: nothing when it is "All", else that
    the cell of the column be that string. *)
Definition selected (c v : string) (r : gmap string cell) : bool :=
  String.eqb v "All" || cell_eqb (cell_at r c) (Str v).

(** What the three selections ask of a row of [df] together. *)
Definition in_scope (df : DataFrame) (county subcounty facility : string)
    (r : gmap string cell) : bool :=
  selected COUNTY_COL county r
  && (negb (bool_decide (SUBCOUNTY_COL ∈ columns df)) || selected SUBCOUNTY_COL subcounty r)
  && selected FACILITY_COL facility r.

(** ** The pages *)

(** [count_df] of [summary_page]: the number of facilities of each tier, in
    the fixed order of [reindex], zero for a tier that does not occur. *)
Definition reindex_count (vc : list (cell * nat)) (label : string) : nat :=
  match List.find (fun e => cell_eqb e.1 (Str label)) vc with
  | Some e => e.2
  | None => 0
  end.

Definition TIERS : list string := ["Bronze"; "Silver"; "Gold"].

Definition maturity_counts (df : DataFrame) : result (list (string * nat)) :=
  ms ← getitem df OVERALL_MATURITY_COL;
  let mat := map maturity_label (dropna ms) in
  let vc := value_counts (map (fmap Str) mat) in
  mret (map (fun t => (t, reindex_count vc t)) TIERS).

(** The facility lists of [summary_page] and [thematic_page]: for each tier
    in turn, the rows of the table of that tier. *)
Definition facility_buckets (group_sum : list float -> float) (df : DataFrame)
    (theme : string) : result (list (string * DataFrame)) :=
  fac ← facility_maturity_table group_sum df theme;
  mapM (fun cat => sub ← filter_eq fac "Maturity Category" cat; mret (cat, sub)) TIERS.

(** [mapped_theme] of [thematic_page]: from the name of a tab to the theme
    that [infer_theme] gives. *)
Definition THEME_OF_TAB : list (string * string) :=
  [ ("Service Delivery", "Service Delivery");
    ("Logistics and Cold Chain", "Logistics & Cold Chain");
    ("Data Quality", "Data Quality");
    ("Community Linkage", "Community Linkage");
    ("HRH", "HRH");
    ("Support Supervision", "Support Supervision") ].

Definition mapped_theme (theme : string) : string :=
  match dict_getitem THEME_OF_TAB theme with
  | Ok t => t
  | Raise _ => theme
  end.

(** The columns that [thematic_page] charts ([kind] is [is_categorical]) or
    tabulates ([kind] is [is_open_ended]) on the tab [theme]: those of the
    rows of [meta] of the mapped theme and of that kind, as far as the frame
    has them. *)
Definition page_columns (kind : ColumnMeta -> bool) (df : DataFrame)
    (meta : list ColumnMeta) (tab : string) : list string :=
  map column
    (List.filter (fun m => bool_decide (column m ∈ columns df))
       (List.filter kind
          (List.filter (fun m => bool_decide (theme m = Some (mapped_theme tab))) meta))).

(** The prefix of the variable names of the questions of each tab. *)
Definition PREFIX_OF_TAB : list (string * string) :=
  [ ("Service Delivery", "sd_");
    ("Logistics and Cold Chain", "cc_");
    ("Data Quality", "dq_");
    ("Community Linkage", "cl_");
    ("HRH", "hr_");
    ("Support Supervision", "ss_") ].

(** [show_open_ended_table], up to the drawing: the table it shows, [None]
    when it writes "No responses." instead. *)
Definition show_open_ended_table (df : DataFrame) (col : string) :
    result (option DataFrame) :=
  sub ← dropna <$> getitem df col;
  match sub with
  | [] => mret None
  | _ =>
      let cols := present df [COUNTY_COL; SUBCOUNTY_COL; FACILITY_COL] in
      sel ← select df (cols ++ [col]);
      Some <$> dropna_subset sel col
  end.

(** A frame of two counties, for the scope filter. *)
Definition scope_frame : DataFrame :=
  {| columns := [COUNTY_COL; SUBCOUNTY_COL; FACILITY_COL];
     rows := [ list_to_map [ (COUNTY_COL, Str "Embu"); (SUBCOUNTY_COL, Str "Manyatta");
                             (FACILITY_COL, Str "F1") ];
               list_to_map [ (COUNTY_COL, Str "Kwale"); (SUBCOUNTY_COL, Str "Matuga");
                             (FACILITY_COL, Str "F2") ];
               list_to_map [ (COUNTY_COL, Str "Embu"); (SUBCOUNTY_COL, Str "Runyenjes");
                             (FACILITY_COL, Str "F3") ] ] |}.

(** The themes that [infer_theme] can return. *)
Definition THEMES : list string :=
  [ "Service Delivery"; "Logistics & Cold Chain"; "Data Quality"; "Community Linkage";
    "HRH"; "Support Supervision"; "Summary" ].

(** * Properties *)

(** A decidable closed goal, by evaluation. *)
Ltac decide_closed := apply (bool_decide_unpack _); vm_compute; exact I.

(** ** Python strings *)

Section PyStrFacts.
Import PyStr.

Lemma startswith_spec (p s : string) :
  startswith p s = true <-> exists rest, s = p +:+ rest.
Proof.
  revert s. induction p as [|a p IH]; intros s; simpl.
  - split; [intros _; by exists s | done].
  - destruct s as [|b s]; simpl.
    + split; [done | intros [rest H]; discriminate].
    + destruct (Ascii.eqb_spec a b) as [->|Hne].
      * rewrite IH. split; intros [rest H]; exists rest.
        -- by rewrite H.
        -- by injection H.
      * split; [done | intros [rest H]; injection H; congruence].
Qed.

Lemma contains_startswith (needle hay : string) :
  startswith needle hay = true -> contains needle hay = true.
Proof. destruct hay; simpl; by intros ->. Qed.

Lemma contains_spec (needle hay : string) :
  contains needle hay = true <-> exists a b, hay = a +:+ needle +:+ b.
Proof.
  split.
  - induction hay as [|c hay IH].
    + simpl. rewrite orb_false_r. intros H. apply startswith_spec in H as [r Hr].
      exists "", r. exact Hr.
    + simpl. intros H. apply orb_true_iff in H as [H|H].
      * apply startswith_spec in H as [r ->]. by exists "", r.
      * destruct (IH H) as (a & b & ->). by exists (String c a), b.
  - intros (a & b & ->). induction a as [|c a IH].
    + apply contains_startswith, startswith_spec. by exists b.
    + simpl. rewrite IH. apply orb_true_r.
Qed.

Lemma lower_empty (s : string) : lower s = "" <-> s = "".
Proof. by destruct s. Qed.

Lemma app_cons (c : ascii) (a b : string) : String c a +:+ b = String c (a +:+ b).
Proof. reflexivity. Qed.

Lemma lower_app (a b : string) : lower (a +:+ b) = lower a +:+ lower b.
Proof.
  induction a as [|c a IH]; [done|].
  rewrite app_cons. cbn [lower]. by rewrite app_cons, IH.
Qed.

Lemma lower_app_inv (v x y : string) :
  lower v = x +:+ y -> exists v1 v2, v = v1 +:+ v2 /\ lower v1 = x /\ lower v2 = y.
Proof.
  revert v. induction x as [|c x IH]; intros v H.
  - by exists "", v.
  - rewrite app_cons in H. destruct v as [|a v]; [discriminate|]. cbn [lower] in H.
    injection H as Hc Hv. destruct (IH v Hv) as (v1 & v2 & -> & H1 & H2).
    exists (String a v1), v2. cbn [lower]. by rewrite Hc, H1.
Qed.

(** A character becomes a small letter or an underscore in lower case
    exactly when it is that character or the capital of that letter. *)
Lemma lower_char_keyword (a b : ascii) :
  keyword_char b = true -> lower_char a = b <-> same_letter a b.
Proof.
  unfold keyword_char, same_letter, lower_char. intros Hb.
  pose proof (N_ascii_bounded a) as Ha.
  assert (N_of_ascii b = 95 \/ 97 <= N_of_ascii b <= 122)%N as Hk.
  { apply orb_true_iff in Hb as [[H1 H2]%andb_true_iff | H%N.eqb_eq]; [right | by left].
    apply N.leb_le in H1, H2. lia. }
  destruct ((65 <=? N_of_ascii a) && (N_of_ascii a <=? 90)
            || (192 <=? N_of_ascii a) && (N_of_ascii a <=? 222)
               && negb (N_of_ascii a =? 215))%N eqn:Hc.
  - assert (N_of_ascii (ascii_of_N (N_of_ascii a + 32)) = N_of_ascii a + 32)%N as He
      by (apply N_ascii_embedding; apply orb_true_iff in Hc
            as [[H1 H2]%andb_true_iff | [[H1 H2]%andb_true_iff _]%andb_true_iff];
          apply N.leb_le in H1, H2; lia).
    split.
    + intros <-. rewrite He in Hk |- *.
      apply orb_true_iff in Hc
        as [[H1 H2]%andb_true_iff | [[H1 H2]%andb_true_iff _]%andb_true_iff];
        apply N.leb_le in H1, H2; [right; lia | lia].
    + intros [<- | (H1 & H2 & H3)].
      * apply orb_true_iff in Hc
          as [[H1 H2]%andb_true_iff | [[H1 H2]%andb_true_iff _]%andb_true_iff];
          apply N.leb_le in H1, H2; lia.
      * rewrite <- H3. apply ascii_N_embedding.
  - split; [by left|]. intros [<- | (H1 & H2 & H3)]; [done|].
    apply orb_false_iff in Hc as [Hc _]. apply andb_false_iff in Hc as [Hc|Hc];
      apply N.leb_gt in Hc; lia.
Qed.

Lemma lower_spells (kw w : string) :
  keyword kw = true -> lower w = kw <-> spells kw w.
Proof.
  revert w. induction kw as [|b kw IH]; intros w Hk.
  - destruct w; cbn [lower spells]; split; done.
  - cbn [keyword] in Hk. apply andb_true_iff in Hk as [Hb Hk].
    destruct w as [|a w]; cbn [lower spells]; [split; done|].
    rewrite <- (IH w Hk), <- (lower_char_keyword a b Hb). split.
    + by intros [= -> ->].
    + by intros [-> ->].
Qed.

(** The test of the source for a keyword, on the name in lower case, finds
    the occurrences of the keyword in whatever case. *)
Lemma occurs_ci_spec (kw v : string) :
  keyword kw = true -> occurs_ci kw v <-> contains kw (lower v) = true.
Proof.
  intros Hk. rewrite contains_spec. unfold occurs_ci. split.
  - intros (pre & w & post & -> & Hw). exists (lower pre), (lower post).
    rewrite !lower_app. by apply lower_spells in Hw as ->.
  - intros (a & b & H). apply lower_app_inv in H as (pre & r & -> & _ & H).
    apply lower_app_inv in H as (w & post & -> & Hw & _).
    exists pre, w, post. split; [done|]. by apply lower_spells.
Qed.

End PyStrFacts.

(** ** The theme classifier *)

Lemma infer_theme_prefix (v p t : string) :
  (p, t) ∈ PREFIX_THEMES -> PyStr.startswith p v = true -> infer_theme (Some v) = Some t.
Proof.
  intros Hin Hp. apply startswith_spec in Hp as [rest ->].
  unfold PREFIX_THEMES in Hin. rewrite !elem_of_cons, elem_of_nil in Hin.
  destruct Hin as [H|[H|[H|[H|[H|[H|[]]]]]]]; injection H as -> ->; reflexivity.
Qed.

Lemma infer_theme_no_prefix (v : string) :
  (forall p t rest, (p, t) ∈ PREFIX_THEMES -> v <> p +:+ rest) ->
  infer_theme (Some v)
  = if PyStr.contains "maturity" (PyStr.lower v) || PyStr.contains "score_pct" (PyStr.lower v)
    then Some "Summary" else None.
Proof.
  intros H.
  assert (forall p t, (p, t) ∈ PREFIX_THEMES -> PyStr.startswith p v = false) as Hp.
  { intros p t Hin. destruct (PyStr.startswith p v) eqn:E; [|done].
    apply startswith_spec in E as [rest E]. by destruct (H p t rest Hin). }
  unfold infer_theme.
  rewrite (Hp "sd_" "Service Delivery"), (Hp "cc_" "Logistics & Cold Chain"),
    (Hp "dq_" "Data Quality"), (Hp "cl_" "Community Linkage"), (Hp "hr_" "HRH"),
    (Hp "ss_" "Support Supervision"); [done|..];
    unfold PREFIX_THEMES; rewrite !elem_of_cons; tauto.
Qed.

(** C6. [infer_theme] is a function of the variable name alone whose rules
    apply in order, the first match winning: a value that is not a string
    has no theme; a name that begins with one of the six prefixes has the
    theme of that prefix (the first of the table that it begins with),
    whether or not it also holds a keyword; a name that begins with none of
    them and in which "maturity" or "score_pct" occurs, in whatever case of
    the letters, has the theme Summary; every other name has no theme. *)
Theorem infer_theme_rules :
  infer_theme None = None
  /\ (forall v p t rest, (p, t) ∈ PREFIX_THEMES -> v = p +:+ rest ->
        infer_theme (Some v) = Some t)
  /\ (forall v t, first_prefix_theme v = Some t -> infer_theme (Some v) = Some t)
  /\ (forall v, (forall p t rest, (p, t) ∈ PREFIX_THEMES -> v <> p +:+ rest) ->
        (occurs_ci "maturity" v \/ occurs_ci "score_pct" v ->
           infer_theme (Some v) = Some "Summary")
        /\ (~ occurs_ci "maturity" v -> ~ occurs_ci "score_pct" v ->
              infer_theme (Some v) = None)).
Proof.
  split; [done|]. split; [|split].
  - intros v p t rest Hin ->. apply (infer_theme_prefix _ p); [done|].
    apply startswith_spec. by exists rest.
  - intros v t. unfold first_prefix_theme.
    destruct (List.find _ PREFIX_THEMES) as [[p t']|] eqn:Hf; [|done].
    intros [= <-]. apply find_some in Hf as [Hin Hp]. apply list_elem_of_In in Hin.
    by apply (infer_theme_prefix v p).
  - intros v Hv. rewrite (infer_theme_no_prefix v Hv).
    rewrite !occurs_ci_spec by reflexivity. split.
    + intros [-> | ->]; [done | by rewrite orb_true_r].
    + intros H1%not_true_is_false H2%not_true_is_false. by rewrite H1, H2.
Qed.

Lemma infer_theme_rules_witness :
  infer_theme (Some "Overall_MATURITY_Level") = Some "Summary"
  /\ infer_theme (Some "total_Score_PCT") = Some "Summary"
  /\ infer_theme (Some "sd_Maturity") = Some "Service Delivery"
  /\ infer_theme (Some "SD_visits") = None.
Proof.
  assert (forall v, PyStr.startswith "sd_" v || PyStr.startswith "cc_" v
                    || PyStr.startswith "dq_" v || PyStr.startswith "cl_" v
                    || PyStr.startswith "hr_" v || PyStr.startswith "ss_" v = false ->
                    forall p t rest, (p, t) ∈ PREFIX_THEMES -> v <> p +:+ rest) as Hno.
  { intros v Hv p t rest Hin ->. unfold PREFIX_THEMES in Hin.
    rewrite !elem_of_cons, elem_of_nil in Hin.
    destruct Hin as [H|[H|[H|[H|[H|[H|[]]]]]]]; injection H as -> ->; discriminate Hv. }
  destruct infer_theme_rules as (_ & Hprefix & _ & Hkey).
  split; [|split; [|split]].
  - apply (Hkey "Overall_MATURITY_Level"); [by apply Hno|]. left.
    exists "Overall_", "MATURITY", "_Level". split; [reflexivity|].
    cbn [spells]. unfold same_letter. cbn. intuition lia.
  - apply (Hkey "total_Score_PCT"); [by apply Hno|]. right.
    exists "total_", "Score_PCT", "". split; [reflexivity|].
    cbn [spells]. unfold same_letter. cbn. intuition lia.
  - apply (Hprefix "sd_Maturity" "sd_" _ "Maturity"); [|reflexivity].
    apply list_elem_of_here.
  - apply (Hkey "SD_visits"); [by apply Hno|..];
      rewrite occurs_ci_spec by reflexivity; discriminate.
Defined.
(** ** The dictionary map *)

Lemma result_bind_Ok {A B} (r : result A) (k : A -> result B) (b : B) :
  r ≫= k = Ok b <-> exists a, r = Ok a /\ k a = Ok b.
Proof.
  destruct r as [a|e]; simpl.
  - split; [intros H; by exists a | by intros (a' & [= <-] & H)].
  - split; [done | by intros (a' & ? & _)].
Qed.

Lemma foldl_insert_union (l : list (option string * DDInfo))
    (m0 : gmap (option string) DDInfo) :
  NoDup l.*1 ->
  foldl (fun m r => <[r.1 := r.2]> m) m0 l = list_to_map l ∪ m0.
Proof.
  revert m0. induction l as [|[k v] l IH]; intros m0 Hnd; simpl.
  - by rewrite (left_id_L ∅ (∪)).
  - apply NoDup_cons in Hnd as [Hk Hnd]. rewrite IH by done.
    apply map_eq. intros i. rewrite !lookup_union.
    destruct (decide (k = i)) as [->|Hne].
    + rewrite !lookup_insert_eq.
      rewrite (not_elem_of_list_to_map_1 _ _ Hk). by destruct (m0 !! i).
    + by rewrite !lookup_insert_ne.
Qed.

Lemma build_dd_map_NoDup (dd : list DictionaryEntry) :
  NoDup (dropna_all (dd_indexed dd)).*1 ->
  build_dd_map dd = Ok (list_to_map (dropna_all (dd_indexed dd)))
  /\ forall label info,
       (list_to_map (dropna_all (dd_indexed dd)) : gmap (option string) DDInfo) !! label
       = Some info <-> (label, info) ∈ dropna_all (dd_indexed dd).
Proof.
  intros H. unfold build_dd_map, to_dict_index. split.
  - by rewrite decide_True.
  - intros label info. symmetry. by apply elem_of_list_to_map.
Qed.

(** C3, as the code has it. When the cleaned labels of the rows that
    [dropna] keeps are pairwise distinct, [build_dd_map] returns a map that
    holds, at each label, the field type and the theme of the row of that
    label (the map of an ordered overwrite, for want of anything to
    overwrite); when a label occurs twice among them, it raises
    [ValueError] and returns no map. *)
Theorem build_dd_map_unique_labels (dd : list DictionaryEntry) :
  (NoDup (dropna_all (dd_indexed dd)).*1 ->
     exists m, build_dd_map dd = Ok m
       /\ (forall label info,
             m !! label = Some info <-> (label, info) ∈ dropna_all (dd_indexed dd))
       /\ m = dd_map_last_wins (dropna_all (dd_indexed dd)))
  /\ (~ NoDup (dropna_all (dd_indexed dd)).*1 -> build_dd_map dd = Raise ValueError).
Proof.
  split; intros H.
  - destruct (build_dd_map_NoDup dd H) as [Hok Hlk].
    exists (list_to_map (dropna_all (dd_indexed dd))). split; [done|]. split; [done|].
    unfold dd_map_last_wins. rewrite foldl_insert_union by done.
    by rewrite (right_id_L ∅ (∪)).
  - unfold build_dd_map, to_dict_index. by rewrite decide_False.
Qed.

Lemma build_dd_map_unique_labels_witness :
  exists m, build_dd_map (fridge_dict "cc_fridge_temp") = Ok m
    /\ (forall label info,
          m !! label = Some info <->
          (label, info) ∈ dropna_all (dd_indexed (fridge_dict "cc_fridge_temp")))
    /\ m = dd_map_last_wins (dropna_all (dd_indexed (fridge_dict "cc_fridge_temp"))).
Proof.
  apply (proj1 (build_dd_map_unique_labels (fridge_dict "cc_fridge_temp"))).
  decide_closed.
Defined.

(** C3, as the claim has it, fails: on two rows whose labels both clean to
    "Fridge", [build_dd_map] raises instead of keeping the last row. *)
Lemma build_dd_map_duplicate_label_raises :
  build_dd_map dup_dict = Raise ValueError
  /\ dd_map_last_wins (dropna_all (dd_indexed dup_dict)) !! Some "Fridge"
     = Some {| info_field_type := Some "text"; info_theme := Some "Service Delivery" |}
  /\ ~ exists m, build_dd_map dup_dict = Ok m.
Proof.
  assert (build_dd_map dup_dict = Raise ValueError) as H by (by vm_compute).
  split; [done|]. split; [by vm_compute|]. intros [m Hm]. congruence.
Qed.

(** ** The column metadata *)

Section SplitHead.
Import PyStr.

Lemma split_head_absent (sep s : string) :
  contains sep s = false -> split_head sep s = s.
Proof.
  induction s as [|c s IH]; simpl.
  - by destruct (startswith sep "").
  - intros H. apply orb_false_iff in H as [H1 H2]. rewrite H1. by rewrite IH.
Qed.

Lemma split_head_present (sep s : string) :
  contains sep s = true -> exists rest, s = split_head sep s +:+ sep +:+ rest.
Proof.
  induction s as [|c s IH]; simpl.
  - rewrite orb_false_r. intros H. rewrite H. by apply startswith_spec.
  - destruct (startswith sep (String c s)) eqn:H1.
    + intros _. by apply startswith_spec.
    + simpl. intros H. destruct (IH H) as [rest Hr]. exists rest.
      change (String c s = String c (split_head sep s +:+ sep +:+ rest)). by f_equal.
Qed.

(** The occurrence that [split_head] cuts at is the first one. *)
Lemma split_head_first (sep a b : string) :
  exists a', a = split_head sep (a +:+ sep +:+ b) +:+ a'.
Proof.
  induction a as [|c a IH].
  - exists "". simpl.
    assert (startswith sep (sep +:+ b) = true) as H by (apply startswith_spec; eauto).
    destruct (sep +:+ b); simpl; by rewrite H.
  - destruct IH as [a' Ha'].
    change (String c a +:+ sep +:+ b) with (String c (a +:+ sep +:+ b)).
    cbn [split_head].
    destruct (startswith sep (String c (a +:+ sep +:+ b))).
    + by exists (String c a).
    + exists a'.
      change (String c a = String c (split_head sep (a +:+ sep +:+ b) +:+ a')).
      by f_equal.
Qed.

End SplitHead.

Lemma opt_in_disjoint (ft : option string) :
  opt_in ft ["yesno"; "radio"; "dropdown"; "checkbox"] && opt_in ft ["text"; "notes"] = false.
Proof.
  destruct ft as [s|]; [|done]. unfold opt_in.
  destruct (bool_decide_reflect (s ∈ ["yesno"; "radio"; "dropdown"; "checkbox"])) as [H1|]; [|done].
  destruct (bool_decide_reflect (s ∈ ["text"; "notes"])) as [H2|]; [|done].
  rewrite !elem_of_cons, elem_of_nil in H1. rewrite !elem_of_cons, elem_of_nil in H2.
  destruct H1 as [->|[->|[->|[->|[]]]]]; destruct H2 as [?|[?|[]]]; discriminate.
Qed.

Lemma elem_of_build_meta (dd_map : gmap (option string) DDInfo) (cols : list string)
    (m : ColumnMeta) :
  m ∈ build_meta dd_map cols <->
  exists col, col ∈ cols /\ (col ∉ ADMIN_COLS) /\ m = column_meta dd_map col.
Proof.
  unfold build_meta. rewrite list_elem_of_In, in_map_iff. split.
  - intros (col & <- & Hin). apply filter_In in Hin as [Hin Hb].
    exists col. rewrite list_elem_of_In. split; [done|]. split; [|done].
    apply negb_true_iff, bool_decide_eq_false in Hb. done.
  - intros (col & Hin & Hna & ->). exists col. split; [done|].
    apply filter_In. rewrite <- list_elem_of_In. split; [done|].
    by apply negb_true_iff, bool_decide_eq_false.
Qed.

(** C9. Of the two flags of a [ColumnMeta], at most one is true, whatever
    the dictionary map holds for the column; so it is for every row of the
    table [meta] that [load_data] returns. *)
Theorem categorical_open_ended_exclusive :
  (forall (dd_map : gmap (option string) DDInfo) (col : string),
     is_categorical (column_meta dd_map col) && is_open_ended (column_meta dd_map col) = false)
  /\ (forall cols dd metas m,
        load_data cols dd = Ok metas -> m ∈ metas ->
        is_categorical m && is_open_ended m = false).
Proof.
  assert (forall (dd_map : gmap (option string) DDInfo) col,
             is_categorical (column_meta dd_map col)
             && is_open_ended (column_meta dd_map col) = false) as H
    by (intros; apply opt_in_disjoint).
  split; [done|]. intros cols dd metas m Hl Hin.
  apply result_bind_Ok in Hl as (dd_map & _ & [= <-]).
  apply elem_of_build_meta in Hin as (col & _ & _ & ->). apply H.
Qed.

Lemma categorical_open_ended_exclusive_witness :
  is_categorical (column_meta ∅ fridge_col) && is_open_ended (column_meta ∅ fridge_col) = false
  /\ forall m, m ∈ [column_meta {[ Some "cc_fridge_temp" :=
                        {| info_field_type := Some "yesno";
                           info_theme := Some "Logistics & Cold Chain" |} ]} fridge_col] ->
       is_categorical m && is_open_ended m = false.
Proof.
  split.
  - apply (proj1 categorical_open_ended_exclusive).
  - intros m. apply (proj2 categorical_open_ended_exclusive [fridge_col]
                       (fridge_dict "cc_fridge_temp")).
    reflexivity.
Defined.

Lemma elem_of_dropna_all (r : option string * DDInfo) (l : list (option string * DDInfo)) :
  r ∈ dropna_all l <->
  r ∈ l /\ (is_Some (info_field_type r.2) \/ is_Some (info_theme r.2)).
Proof.
  unfold dropna_all. rewrite !list_elem_of_In, filter_In, orb_true_iff.
  by rewrite !bool_decide_eq_true.
Qed.

(** C4, as the code has it. For a retained column, the base label is the
    column name cut at its first "(choice=" and trimmed; the metadata is the
    one the dictionary map holds for the base label, else the one it holds
    for the column name, else none, with both flags false.  The column
    "cc_fridge_temp (choice=Yes)" is categorical with the theme "Logistics &
    Cold Chain" when the dictionary, of distinct labels, has a row labelled
    "cc_fridge_temp" of type "yesno" whose variable name starts with "cc_":
    the theme comes from the variable name, not from the label. *)
Theorem column_meta_two_step_lookup :
  (forall (dd_map : gmap (option string) DDInfo) (col : string),
     let base := PyStr.strip (PyStr.split_head "(choice=" col) in
     let m := column_meta dd_map col in
     column m = col /\ base_label m = base
     /\ (forall i, dd_map !! Some base = Some i ->
           field_type m = info_field_type i /\ theme m = info_theme i)
     /\ (forall i, dd_map !! Some base = None -> dd_map !! Some col = Some i ->
           field_type m = info_field_type i /\ theme m = info_theme i)
     /\ (dd_map !! Some base = None -> dd_map !! Some col = None ->
           field_type m = None /\ theme m = None
           /\ is_categorical m = false /\ is_open_ended m = false)
     /\ is_categorical m = opt_in (field_type m) ["yesno"; "radio"; "dropdown"; "checkbox"]
     /\ is_open_ended m = opt_in (field_type m) ["text"; "notes"])
  /\ (forall dd e v,
        NoDup (dropna_all (dd_indexed dd)).*1 ->
        e ∈ dd ->
        dd_field_label e = Some "cc_fridge_temp" ->
        dd_field_type e = Some "yesno" ->
        dd_variable_name e = Some v ->
        PyStr.startswith "cc_" v = true ->
        exists m, load_data [fridge_col] dd = Ok [m]
          /\ column m = fridge_col /\ base_label m = "cc_fridge_temp"
          /\ field_type m = Some "yesno"
          /\ theme m = Some "Logistics & Cold Chain"
          /\ is_categorical m = true /\ is_open_ended m = false).
Proof.
  split.
  - intros dd_map col base m. subst m. unfold column_meta, lookup_info. fold base. simpl.
    split; [done|]. split; [done|]. split; [by intros i ->|].
    split; [by intros i -> ->|]. split; [by intros -> ->|]. done.
  - intros dd e v Hnd He Hl Ht Hv Hp.
    destruct (build_dd_map_NoDup dd Hnd) as [Hdm Hlk].
    set (dm := list_to_map (dropna_all (dd_indexed dd)) : gmap (option string) DDInfo) in *.
    assert (dm !! Some "cc_fridge_temp"
            = Some {| info_field_type := Some "yesno";
                      info_theme := Some "Logistics & Cold Chain" |}) as Hi.
    { apply Hlk, elem_of_dropna_all. split; [|left; by eexists].
      unfold dd_indexed. apply list_elem_of_In, in_map_iff. exists e.
      rewrite <- list_elem_of_In. split; [|done].
      rewrite Hl, Ht, Hv. simpl. f_equal. f_equal.
      apply (infer_theme_prefix v "cc_"); [|done].
      unfold PREFIX_THEMES. rewrite !elem_of_cons. tauto. }
    exists (column_meta dm fridge_col). unfold load_data. rewrite Hdm. simpl.
    split; [reflexivity|].
    unfold column_meta, lookup_info.
    change (PyStr.strip "cc_fridge_temp ") with "cc_fridge_temp".
    rewrite Hi. simpl. done.
Qed.

Lemma column_meta_two_step_lookup_witness :
  exists m, load_data [fridge_col] (fridge_dict "cc_fridge_temp") = Ok [m]
    /\ column m = fridge_col /\ base_label m = "cc_fridge_temp"
    /\ field_type m = Some "yesno"
    /\ theme m = Some "Logistics & Cold Chain"
    /\ is_categorical m = true /\ is_open_ended m = false.
Proof.
  refine (proj2 column_meta_two_step_lookup (fridge_dict "cc_fridge_temp") _
            "cc_fridge_temp" _ _ _ _ _ _).
  - decide_closed.
  - apply list_elem_of_here.
  - reflexivity.
  - reflexivity.
  - reflexivity.
  - reflexivity.
Defined.

(** C4, as the claim has it, fails: a row labelled "cc_fridge_temp" of type
    "yesno" whose variable name is "fridge_temp" makes the column
    categorical, but gives it no theme. *)
Lemma fridge_column_without_theme :
  exists m, load_data [fridge_col] (fridge_dict "fridge_temp") = Ok [m]
    /\ base_label m = "cc_fridge_temp" /\ field_type m = Some "yesno"
    /\ is_categorical m = true /\ theme m = None.
Proof. eexists. split; [reflexivity|]. by vm_compute. Qed.

(** ** Lists: distinct elements and the insertion sort *)

Section ListFacts.
Context {A : Type}.

Lemma elem_of_filter_bool (f : A -> bool) (l : list A) (x : A) :
  x ∈ List.filter f l <-> x ∈ l /\ f x = true.
Proof. by rewrite !list_elem_of_In, filter_In. Qed.

Lemma elem_of_distinct_by (eqb : A -> A -> bool) (l : list A) (x : A) :
  x ∈ distinct_by eqb l -> x ∈ l.
Proof.
  induction l as [|k l IH]; simpl; [done|].
  rewrite !elem_of_cons, elem_of_filter_bool. intros [?|[? _]]; auto.
Qed.

Lemma distinct_by_covers (eqb : A -> A -> bool) (l : list A) (x : A) :
  (forall a b c, eqb a b = true -> eqb b c = true -> eqb a c = true) ->
  eqb x x = true -> x ∈ l ->
  exists y, y ∈ distinct_by eqb l /\ eqb y x = true.
Proof.
  intros Htrans Hx. induction l as [|k l IH]; [by intros ?%elem_of_nil|].
  intros Hin. simpl. destruct (eqb k x) eqn:Hkx.
  - exists k. split; [apply list_elem_of_here | done].
  - apply elem_of_cons in Hin as [->|Hin]; [congruence|].
    destruct (IH Hin) as (y & Hy & Hyx). exists y. split; [|done].
    apply list_elem_of_further, elem_of_filter_bool. split; [done|].
    destruct (eqb k y) eqn:Hky; [|done]. by rewrite (Htrans _ _ _ Hky Hyx) in Hkx.
Qed.

Lemma ForallOrdPairs_filter (R : A -> A -> Prop) (f : A -> bool) (l : list A) :
  ForallOrdPairs R l -> ForallOrdPairs R (List.filter f l).
Proof.
  induction 1 as [|a l Ha Hl IH]; simpl; [constructor|].
  destruct (f a); [|done]. constructor; [|done].
  apply Forall_forall. intros x [Hx _]%elem_of_filter_bool.
  rewrite Forall_forall in Ha. by apply Ha.
Qed.

(** No two elements of [distinct_by eqb l] are equal up to [eqb]. *)
Lemma distinct_by_pairwise (eqb : A -> A -> bool) (l : list A) :
  ForallOrdPairs (fun x y => eqb x y = false) (distinct_by eqb l).
Proof.
  induction l as [|k l IH]; simpl; constructor.
  - apply Forall_forall. intros x [_ Hx]%elem_of_filter_bool.
    by apply negb_true_iff.
  - by apply ForallOrdPairs_filter.
Qed.

Lemma elem_of_insert_by (le : A -> A -> bool) (x y : A) (l : list A) :
  y ∈ insert_by le x l <-> y = x \/ y ∈ l.
Proof.
  induction l as [|z l IH]; simpl.
  - rewrite list_elem_of_singleton, elem_of_nil. tauto.
  - destruct (le x z); rewrite !elem_of_cons; [tauto|]. rewrite IH. tauto.
Qed.

Lemma elem_of_sort_by (le : A -> A -> bool) (y : A) (l : list A) :
  y ∈ sort_by le l <-> y ∈ l.
Proof.
  unfold sort_by. induction l as [|x l IH]; simpl; [done|].
  rewrite elem_of_insert_by, elem_of_cons, IH. tauto.
Qed.


Lemma ForallOrdPairs_insert_by (R : A -> A -> Prop) (le : A -> A -> bool)
    (x : A) (l : list A) :
  (forall a b, R a b -> R b a) ->
  Forall (R x) l -> ForallOrdPairs R l -> ForallOrdPairs R (insert_by le x l).
Proof.
  intros Hsym Hx Hl. revert Hx. induction Hl as [|z l Hz Hl IH]; intros Hx; simpl.
  - repeat constructor.
  - destruct (le x z); [constructor; [done | by constructor]|].
    apply Forall_cons in Hx as [Hxz Hx]. constructor; [|by apply IH].
    apply Forall_forall. intros w [->|Hw]%elem_of_insert_by.
    + by apply Hsym.
    + rewrite Forall_forall in Hz. by apply Hz.
Qed.

Lemma ForallOrdPairs_sort_by (R : A -> A -> Prop) (le : A -> A -> bool) (l : list A) :
  (forall a b, R a b -> R b a) ->
  ForallOrdPairs R l -> ForallOrdPairs R (sort_by le l).
Proof.
  intros Hsym. unfold sort_by. induction 1 as [|x l Hx Hl IH]; simpl; [constructor|].
  apply ForallOrdPairs_insert_by; [done| |done].
  apply Forall_forall. intros w Hw%elem_of_sort_by.
  rewrite Forall_forall in Hx. by apply Hx.
Qed.

Lemma ForallOrdPairs_map {B : Type} (R : B -> B -> Prop) (f : A -> B) (l : list A) :
  ForallOrdPairs (fun a b => R (f a) (f b)) l -> ForallOrdPairs R (map f l).
Proof.
  induction 1 as [|x l Hx Hl IH]; simpl; constructor; [|done].
  apply Forall_forall. intros w (a & <- & Ha)%list_elem_of_In%in_map_iff.
  rewrite Forall_forall in Hx. by apply Hx, list_elem_of_In.
Qed.

End ListFacts.

(** ** The chart of a categorical column *)

Section ChartFacts.
Variable float_repr : Q -> string.

Lemma normalize_Some_notna (resp l : cell) :
  normalize float_repr resp = Some l -> isna l = false.
Proof.
  unfold normalize. destruct (isna resp) eqn:Hna; [done|].
  repeat case_match; by intros [= <-].
Qed.

Lemma elem_of_value_counts (s : list (option cell)) (l : cell) (n : nat) :
  (l, n) ∈ value_counts s ->
  Some l ∈ s /\ n = length (List.filter (cell_eqb l) (omap id s)).
Proof.
  unfold value_counts. rewrite elem_of_sort_by, list_elem_of_In, in_map_iff.
  intros (v & [= -> <-] & Hv). split; [|done].
  apply list_elem_of_In, elem_of_distinct_by, list_elem_of_omap in Hv
    as (o & Ho & Hv). simpl in Hv. by subst o.
Qed.

End ChartFacts.

(** C10. [normalize] sends a response that is not missing to "Yes" when its
    text, trimmed and in lower case, is "yes", "y" or "1", and to "No" when
    it is "no", "n" or "0"; it sends to [None] a response that is missing or
    whose text trims to the empty string; it returns every other response
    as it is.  No label of the counts of the chart is missing, and each is
    the value of [normalize] on a response of the series. *)
Theorem normalize_binary_responses (float_repr : Q -> string) (resp : cell) :
  let s := PyStr.lower (PyStr.strip (py_str float_repr resp)) in
  (isna resp = false -> s ∈ ["yes"; "y"; "1"] ->
     normalize float_repr resp = Some (Str "Yes"))
  /\ (isna resp = false -> s ∈ ["no"; "n"; "0"] ->
        normalize float_repr resp = Some (Str "No"))
  /\ (isna resp = true \/ PyStr.strip (py_str float_repr resp) = "" ->
        normalize float_repr resp = None)
  /\ (isna resp = false -> s ∉ ["yes"; "y"; "1"; "no"; "n"; "0"] ->
        PyStr.strip (py_str float_repr resp) <> "" ->
        normalize float_repr resp = Some resp)
  /\ (forall series l n,
        (l, n) ∈ value_counts (map (normalize float_repr) series) ->
        isna l = false
        /\ exists r, r ∈ series /\ isna r = false /\ normalize float_repr r = Some l).
Proof.
  intros s. unfold normalize. fold s. repeat split.
  - intros -> Hs. by rewrite bool_decide_eq_true_2.
  - intros -> Hs. rewrite bool_decide_eq_false_2, bool_decide_eq_true_2; [done..|].
    rewrite !elem_of_cons, elem_of_nil in Hs. rewrite !elem_of_cons, elem_of_nil.
    intros [?|[?|[?|[]]]]; destruct Hs as [?|[?|[?|[]]]]; congruence.
  - intros [->|He]; [done|]. destruct (isna resp); [done|].
    unfold s. rewrite He. reflexivity.
  - intros -> Hs He. rewrite !elem_of_cons, elem_of_nil in Hs.
    rewrite !bool_decide_eq_false_2.
    + destruct (String.eqb_spec s "") as [E|]; [|done].
      unfold s in E. destruct He. by apply lower_empty.
    + rewrite !elem_of_cons, elem_of_nil. tauto.
    + rewrite !elem_of_cons, elem_of_nil. tauto.
  - apply elem_of_value_counts in H as [H _].
    apply list_elem_of_In, in_map_iff in H as (r & Hr & _).
    by apply normalize_Some_notna in Hr.
  - apply elem_of_value_counts in H as [H _].
    apply list_elem_of_In, in_map_iff in H as (r & Hr & Hin).
    exists r. rewrite list_elem_of_In. split; [done|]. split; [|done].
    unfold normalize in Hr. by destruct (isna r).
Qed.

Lemma normalize_binary_responses_witness :
  normalize (fun _ => "1.0") (Str " YES ") = Some (Str "Yes")
  /\ normalize (fun _ => "1.0") (Int 0) = Some (Str "No")
  /\ normalize (fun _ => "1.0") (Str "  ") = None
  /\ normalize (fun _ => "1.0") (Float 1) = Some (Float 1).
Proof.
  split; [|split; [|split]].
  - apply (proj1 (normalize_binary_responses (fun _ => "1.0") (Str " YES "))).
    + reflexivity.
    + decide_closed.
  - apply (proj1 (proj2 (normalize_binary_responses (fun _ => "1.0") (Int 0)))).
    + reflexivity.
    + decide_closed.
  - apply (proj1 (proj2 (proj2 (normalize_binary_responses (fun _ => "1.0") (Str "  "))))).
    right. reflexivity.
  - apply (proj1 (proj2 (proj2 (proj2
             (normalize_binary_responses (fun _ => "1.0") (Float 1)))))).
    + reflexivity.
    + decide_closed.
    + decide_closed.
Defined.

(** ** Frames *)

Lemma dict_getitem_Ok (d : list (string * string)) (k v : string) :
  dict_getitem d k = Ok v -> (k, v) ∈ d.
Proof.
  induction d as [|[k' v'] d IH]; simpl; [done|].
  destruct (String.eqb_spec k' k) as [->|_].
  - intros [= ->]. apply list_elem_of_here.
  - intros H. by apply list_elem_of_further, IH.
Qed.

(** No score or maturity column bears one of the names that
    [facility_maturity_table] gives or groups by. *)
Lemma theme_col_fresh (d : list (string * string)) (theme c : string) :
  d = THEME_SCORE_COLS \/ d = THEME_MATURITY_COLS ->
  dict_getitem d theme = Ok c ->
  c ∉ [COUNTY_COL; SUBCOUNTY_COL; FACILITY_COL; "Maturity Category"; "Score (%)";
       "Maturity"].
Proof.
  intros Hd H. apply dict_getitem_Ok in H.
  destruct Hd as [-> | ->]; unfold THEME_SCORE_COLS, THEME_MATURITY_COLS in H;
    rewrite !elem_of_cons, elem_of_nil in H;
    destruct H as [H|[H|[H|[H|[H|[H|[H|[]]]]]]]]; injection H as _ ->;
    rewrite !elem_of_cons, elem_of_nil; intros [?|[?|[?|[?|[?|[?|[]]]]]]]; discriminate.
Qed.

Lemma elem_of_present (df : DataFrame) (l : list string) (c : string) :
  c ∈ present df l <-> c ∈ l /\ c ∈ columns df.
Proof. unfold present. by rewrite elem_of_filter_bool, bool_decide_eq_true. Qed.

Lemma select_present (df : DataFrame) (l : list string) :
  select df (present df l) = Ok {| columns := present df l; rows := rows df |}.
Proof.
  unfold select, present.
  destruct (List.find _ _) as [c|] eqn:Hf; [|done].
  apply find_some in Hf as [Hin Hb]. apply filter_In in Hin as [_ Hc].
  by rewrite Hc in Hb.
Qed.

Lemma zip_with_map_r {A B C} (f : A -> B -> C) (g : A -> B) (l : list A) :
  zip_with f l (map g l) = map (fun a => f a (g a)) l.
Proof. induction l as [|a l IH]; simpl; by f_equal. Qed.

Lemma present_keys (df df' : DataFrame) :
  (forall c, c ∈ [COUNTY_COL; SUBCOUNTY_COL; FACILITY_COL] ->
             c ∈ columns df' <-> c ∈ columns df) ->
  "Maturity Category" ∈ columns df' ->
  present df' [COUNTY_COL; SUBCOUNTY_COL; FACILITY_COL; "Maturity Category"]
  = facility_keys df.
Proof.
  intros H HM.
  assert (forall c, c ∈ [COUNTY_COL; SUBCOUNTY_COL; FACILITY_COL] ->
            bool_decide (c ∈ columns df') = bool_decide (c ∈ columns df)) as Hb.
  { intros c Hc. apply bool_decide_ext. by apply H. }
  unfold facility_keys, present. cbn [List.filter].
  rewrite (Hb COUNTY_COL), (Hb SUBCOUNTY_COL), (Hb FACILITY_COL) by set_solver.
  rewrite (bool_decide_eq_true_2 _ HM).
  destruct (bool_decide (COUNTY_COL ∈ columns df)),
    (bool_decide (SUBCOUNTY_COL ∈ columns df)),
    (bool_decide (FACILITY_COL ∈ columns df)); reflexivity.
Qed.

Lemma bind_Ok {A B} (a : A) (k : A -> result B) : Ok a ≫= k = k a.
Proof. reflexivity. Qed.

Lemma bind_Raise {A B} (e : exn) (k : A -> result B) : Raise e ≫= k = Raise e.
Proof. reflexivity. Qed.

(** [facility_maturity_table] up to the grouping, when the frame has the
    maturity column of the theme. *)
Lemma facility_maturity_table_eq (group_sum : list float -> float) (df : DataFrame)
    (theme s m : string) :
  dict_getitem THEME_SCORE_COLS theme = Ok s ->
  dict_getitem THEME_MATURITY_COLS theme = Ok m ->
  m ∈ columns df ->
  facility_maturity_table group_sum df theme
  = (agg ← groupby_mean group_sum
             {| columns := present df [COUNTY_COL; SUBCOUNTY_COL; FACILITY_COL; s; m]
                           ++ ["Maturity Category"];
                rows := tiered_rows df m |}
             (facility_keys df) s;
     cats ← getitem (rename agg s "Score (%)") "Maturity Category";
     mret (sort_values_desc (assign (rename agg s "Score (%)") "Maturity"
                               (map maturity_icon cats)) "Score (%)")).
Proof.
  intros Hs Hm Hin. unfold facility_maturity_table. rewrite Hs, Hm, !bind_Ok.
  rewrite select_present, bind_Ok.
  pose proof (theme_col_fresh _ _ _ (or_introl eq_refl) Hs) as Hfs.
  pose proof (theme_col_fresh _ _ _ (or_intror eq_refl) Hm) as Hfm.
  set (cols := present df [COUNTY_COL; SUBCOUNTY_COL; FACILITY_COL; s; m]).
  assert (m ∈ cols) as Hmc by (apply elem_of_present; set_solver).
  assert ("Maturity Category" ∉ cols) as HMC.
  { intros [H _]%elem_of_present. rewrite !elem_of_cons, elem_of_nil in H.
    destruct H as [H|[H|[H|[H|[H|[]]]]]]; try discriminate H; set_solver. }
  unfold dropna_subset. cbn [columns rows]. rewrite decide_True, bind_Ok by done.
  unfold getitem. cbn [columns rows]. rewrite decide_True, bind_Ok by done.
  unfold assign. cbn [columns rows]. rewrite decide_False by done.
  rewrite map_map, zip_with_map_r. fold (tiered_rows df m).
  rewrite (present_keys df); [done|..]; cbn [columns].
  - intros c Hc. rewrite elem_of_app, list_elem_of_singleton. unfold cols.
    rewrite elem_of_present. split.
    + intros [[_ ?]| ->]; [done|]. rewrite !elem_of_cons, elem_of_nil in Hc.
      destruct Hc as [?|[?|[?|[]]]]; discriminate.
    + intros H. left. split; [|done]. set_solver.
  - set_solver.
Qed.

(** ** Missing columns and empty scopes *)

Lemma getitem_absent (df : DataFrame) (c : string) :
  c ∉ columns df -> getitem df c = Raise (KeyError c).
Proof. intros H. unfold getitem. by rewrite decide_False. Qed.

Lemma getitem_present (df : DataFrame) (c : string) :
  c ∈ columns df -> getitem df c = Ok (map (fun r => cell_at r c) (rows df)).
Proof. intros H. unfold getitem. by rewrite decide_True. Qed.

Lemma filter_eq_columns (df df' : DataFrame) (c v : string) :
  filter_eq df c v = Ok df' ->
  columns df' = columns df
  /\ rows df' = List.filter (fun r => cell_eqb (cell_at r c) (Str v)) (rows df).
Proof. unfold filter_eq. case_decide; [|done]. by intros [= <-]. Qed.

(** C1, as the code has it. When the frame lacks the score column or the
    maturity column of the theme, the two operations raise [KeyError]:
    [show_theme_summary_banner] when it takes the columns out of the frame,
    [facility_maturity_table] at the maturity column when that one is
    missing, else at the score column. *)
Theorem missing_theme_column_raises (float_of_str : string -> option float)
    (array_sum group_sum : list float -> float)
    (df : DataFrame) (theme county subcounty s m : string) :
  dict_getitem THEME_SCORE_COLS theme = Ok s ->
  dict_getitem THEME_MATURITY_COLS theme = Ok m ->
  s ∉ columns df \/ m ∉ columns df ->
  (exists k, show_theme_summary_banner float_of_str array_sum df theme county subcounty
             = Raise (KeyError k))
  /\ facility_maturity_table group_sum df theme
     = Raise (KeyError (if decide (m ∈ columns df) then s else m)).
Proof.
  intros Hs Hm Hab. split.
  - unfold show_theme_summary_banner. rewrite Hs, Hm. simpl.
    assert (forall dfc, columns dfc = columns df ->
              exists k, (getitem dfc s ≫= fun ss =>
                         getitem dfc m ≫= fun ms =>
                         render_scope_summary float_of_str array_sum ss ms ≫= fun c1 =>
                         (if negb (String.eqb subcounty "All")
                             && bool_decide (SUBCOUNTY_COL ∈ columns df)
                          then filter_eq df SUBCOUNTY_COL subcounty ≫= fun dfs =>
                               getitem dfs s ≫= fun ss0 =>
                               getitem dfs m ≫= fun ms0 =>
                               Some <$> render_scope_summary float_of_str array_sum ss0 ms0
                          else Ok None) ≫= fun c2 => mret (c1, c2))
                        = Raise (KeyError k)) as Hcore.
    { intros dfc Hc. destruct (decide (s ∈ columns df)) as [Hin|Hin].
      - destruct Hab as [?|Hab]; [done|]. exists m.
        rewrite (getitem_present dfc s), bind_Ok by (rewrite Hc; exact Hin).
        rewrite (getitem_absent dfc m) by (rewrite Hc; exact Hab). done.
      - exists s. rewrite (getitem_absent dfc s) by (rewrite Hc; exact Hin). done. }
    destruct (String.eqb county "All"); simpl; [by apply Hcore|].
    destruct (filter_eq df COUNTY_COL county) as [dfc|e] eqn:Hf; simpl.
    + apply Hcore. by apply filter_eq_columns in Hf as [? _].
    + unfold filter_eq in Hf. case_decide; [done|]. injection Hf as <-. by eexists.
  - destruct (decide (m ∈ columns df)) as [Hin|Hin].
    + destruct Hab as [Hab|?]; [|done].
      rewrite (facility_maturity_table_eq group_sum df theme s m) by done.
      unfold groupby_mean. cbn [columns]. rewrite decide_False; [done|].
      pose proof (theme_col_fresh _ _ _ (or_introl eq_refl) Hs) as Hfs.
      rewrite elem_of_app, elem_of_present, list_elem_of_singleton.
      intros [[_ ?]| ->]; [done|]. set_solver.
    + unfold facility_maturity_table. rewrite Hs, Hm, !bind_Ok.
      rewrite select_present, bind_Ok. unfold dropna_subset. cbn [columns].
      rewrite decide_False; [done|]. by intros [_ ?]%elem_of_present.
Qed.

Lemma missing_theme_column_raises_witness :
  (exists k, show_theme_summary_banner (fun _ => None) fsum no_score_frame
               "Summary" "All" "All" = Raise (KeyError k))
  /\ facility_maturity_table fsum no_score_frame "Summary"
     = Raise (KeyError (if decide (OVERALL_MATURITY_COL ∈ columns no_score_frame)
                        then OVERALL_SCORE_COL else OVERALL_MATURITY_COL)).
Proof.
  apply (missing_theme_column_raises (fun _ => None) fsum fsum no_score_frame
           "Summary" "All" "All" OVERALL_SCORE_COL OVERALL_MATURITY_COL).
  - reflexivity.
  - reflexivity.
  - left. decide_closed.
Defined.

(** C1, as the claim has it, fails: on a frame without the score column of
    the theme "Summary", neither operation returns a null or empty result;
    both raise. *)
Lemma missing_score_column_raises :
  show_theme_summary_banner (fun _ => None) fsum no_score_frame "Summary" "All" "All"
  = Raise (KeyError OVERALL_SCORE_COL)
  /\ facility_maturity_table fsum no_score_frame "Summary"
     = Raise (KeyError OVERALL_SCORE_COL).
Proof. split; by vm_compute. Qed.

(** C5. On a row set without rows, [render_scope_summary] returns a null
    score and a null tier; so does the banner of a frame without rows that
    has the columns of the theme (and the county column, when a county is
    selected), for the county and, when it is shown, for the subcounty. *)
Theorem scope_summary_empty (float_of_str : string -> option float)
    (array_sum : list float -> float) :
  render_scope_summary float_of_str array_sum [] []
  = Ok {| score := None; maturity := None |}
  /\ forall (df : DataFrame) (theme county subcounty s m : string),
       rows df = [] ->
       dict_getitem THEME_SCORE_COLS theme = Ok s ->
       dict_getitem THEME_MATURITY_COLS theme = Ok m ->
       s ∈ columns df -> m ∈ columns df ->
       county = "All" \/ COUNTY_COL ∈ columns df ->
       exists c2,
         show_theme_summary_banner float_of_str array_sum df theme county subcounty
         = Ok ({| score := None; maturity := None |}, c2)
         /\ (c2 = None \/ c2 = Some {| score := None; maturity := None |}).
Proof.
  split; [done|]. intros df theme county subcounty s m Hr Hs Hm Hsi Hmi Hc.
  unfold show_theme_summary_banner. rewrite Hs, Hm. simpl.
  assert (forall c v, c ∈ columns df ->
            filter_eq df c v = Ok {| columns := columns df; rows := [] |}) as Hf.
  { intros c v H. unfold filter_eq. rewrite decide_True by done. by rewrite Hr. }
  assert (forall dfc, columns dfc = columns df -> rows dfc = [] ->
            getitem dfc s = Ok [] /\ getitem dfc m = Ok []) as Hg.
  { intros dfc H1 H2. rewrite !getitem_present by (by rewrite H1). by rewrite H2. }
  assert (exists dfc, (if String.eqb county "All" then Ok df
                       else filter_eq df COUNTY_COL county) = Ok dfc
                      /\ columns dfc = columns df /\ rows dfc = []) as (dfc & -> & H1 & H2).
  { destruct (String.eqb_spec county "All") as [->|Hne].
    - by exists df.
    - destruct Hc as [?|Hc]; [done|]. rewrite Hf by done. by eexists. }
  simpl. destruct (Hg dfc H1 H2) as [-> ->]. simpl.
  destruct (negb (String.eqb subcounty "All") && bool_decide (SUBCOUNTY_COL ∈ columns df))
    eqn:Hsub; simpl.
  - apply andb_true_iff in Hsub as [_ Hsub%bool_decide_eq_true].
    rewrite Hf by done. simpl.
    destruct (Hg {| columns := columns df; rows := [] |} eq_refl eq_refl) as [-> ->].
    simpl. eexists. split; [reflexivity|]. by right.
  - eexists. split; [reflexivity|]. by left.
Qed.

Lemma scope_summary_empty_witness :
  exists c2,
    show_theme_summary_banner (fun _ => None) fsum empty_frame "Summary" "Embu" "All"
    = Ok ({| score := None; maturity := None |}, c2)
    /\ (c2 = None \/ c2 = Some {| score := None; maturity := None |}).
Proof.
  apply (proj2 (scope_summary_empty (fun _ => None) fsum) empty_frame "Summary" "Embu" "All"
           OVERALL_SCORE_COL OVERALL_MATURITY_COL).
  - reflexivity.
  - reflexivity.
  - reflexivity.
  - decide_closed.
  - decide_closed.
  - right. decide_closed.
Defined.


(** ** Floats *)

Section RoundFacts.
Local Open Scope Q_scope.

Lemma py_round_comp (x y : Q) : x == y -> py_round x = py_round y.
Proof.
  intros H. unfold py_round. rewrite (Qfloor_comp _ _ H).
  assert ((x - inject_Z (Qfloor y) ?= 1 # 2) = (y - inject_Z (Qfloor y) ?= 1 # 2)) as ->; [|done].
  apply Qcompare_comp; [|reflexivity]. by rewrite H.
Qed.

Lemma py_round_nearest_even (x : Q) :
  Qabs (x - inject_Z (py_round x)) <= 1 # 2
  /\ (Qabs (x - inject_Z (py_round x)) == 1 # 2 -> Z.even (py_round x) = true).
Proof.
  unfold py_round.
  pose proof (Qfloor_le x) as Hlo. pose proof (Qlt_floor x) as Hhi.
  rewrite inject_Z_plus in Hhi. change (inject_Z 1) with 1 in Hhi.
  set (f := Qfloor x) in *.
  destruct (Qcompare_spec (x - inject_Z f) (1 # 2)) as [He|Hl|Hg].
  - assert (Qabs (x - inject_Z f) == 1 # 2) as H1
        by (rewrite Qabs_pos; [done | lra]).
    assert (Qabs (x - inject_Z (f + 1)) == 1 # 2) as H2
        by (rewrite inject_Z_plus; change (inject_Z 1) with 1; rewrite Qabs_neg; lra).
    destruct (Z.even f) eqn:Hev.
    + split; [rewrite H1; lra | done].
    + split; [rewrite H2; lra|]. intros _.
      by rewrite Z.add_1_r, Z.even_succ, <- Z.negb_even, Hev.
  - assert (Qabs (x - inject_Z f) == x - inject_Z f) as H1
        by (rewrite Qabs_pos; [done | lra]).
    split; [rewrite H1; lra|]. rewrite H1. lra.
  - assert (Qabs (x - inject_Z (f + 1)) == inject_Z f + 1 - x) as H2
        by (rewrite inject_Z_plus; change (inject_Z 1) with 1; rewrite Qabs_neg; lra).
    split; [rewrite H2; lra|]. rewrite H2. lra.
Qed.

Lemma py_round_Z (z : Z) : py_round (inject_Z z) = z.
Proof.
  unfold py_round. rewrite Qfloor_Z.
  destruct (Qcompare_spec (inject_Z z - inject_Z z) (1 # 2)) as [H|H|H]; [lra | done | lra].
Qed.

Lemma b64_comp (x y : Q) : x == y -> b64 x = b64 y.
Proof. intros H. unfold b64. by rewrite (Qred_complete x y H). Qed.

Lemma Qred_inject_Z (z : Z) : Qred (inject_Z z) = inject_Z z.
Proof. apply Qcanon.Qred_identity. cbn. apply Z.gcd_1_r. Qed.

Lemma pow2_nonneg (k : Z) : (0 <= k)%Z -> pow2 k == inject_Z (2 ^ k).
Proof. intros H. unfold pow2. by rewrite Zpower_Qpower. Qed.

Lemma pow2_opp (k : Z) : pow2 (- k) == / pow2 k.
Proof. unfold pow2. apply Qpower_opp. Qed.

(** An integer below [2 ** 53] is a float. *)
Lemma b64_int (z : Z) : (Z.abs z < 2 ^ 53)%Z -> b64 (inject_Z z) = Finite (inject_Z z).
Proof.
  intros Hz. unfold b64. rewrite Qred_inject_Z.
  destruct (Z.eq_dec z 0%Z) as [->|Hne]; [reflexivity|].
  assert (Qeq_bool (inject_Z z) 0 = false) as ->.
  { apply not_true_is_false. intros H%Qeq_bool_iff. apply Hne.
    unfold Qeq in H. cbn in H. lia. }
  set (e := Z.max _ _).
  assert (-1074 <= e <= 0)%Z as He.
  { unfold e, ilog2. change (Qabs (inject_Z z)) with (inject_Z (Z.abs z)).
    cbn [Qnum Qden inject_Z]. change (Z.log2 1) with 0%Z.
    assert (Z.log2 (Z.abs z) < 53)%Z by (apply Z.log2_lt_pow2; lia).
    destruct (Qle_bool _ _); lia. }
  assert (pow2 e == / inject_Z (2 ^ (- e))) as Hp.
  { rewrite <- (pow2_nonneg (- e)) by lia. rewrite <- pow2_opp.
    by rewrite Z.opp_involutive. }
  assert (0 < 2 ^ (- e))%Z as Hpos by (apply Z.pow_pos_nonneg; lia).
  assert (0 < inject_Z (2 ^ (- e))) as HposQ
    by (rewrite <- (Zlt_Qlt 0); exact Hpos).
  assert (inject_Z z / pow2 e == inject_Z (z * 2 ^ (- e))) as Hq.
  { rewrite Hp, inject_Z_mult. field. lra. }
  rewrite (py_round_comp _ _ Hq), py_round_Z.
  assert (inject_Z (z * 2 ^ (- e)) * pow2 e == inject_Z z) as Hr.
  { rewrite Hp, inject_Z_mult. field. lra. }
  rewrite (Qred_complete _ _ Hr), Qred_inject_Z.
  assert (Qle_bool (pow2 1024) (Qabs (inject_Z z)) = false) as ->; [|done].
  apply not_true_is_false. intros H%Qle_bool_iff.
  rewrite (pow2_nonneg 1024) in H by lia.
  change (Qabs (inject_Z z)) with (inject_Z (Z.abs z)) in H.
  rewrite <- Zle_Qle in H.
  assert (2 ^ 53 < 2 ^ 1024)%Z by (apply Z.pow_lt_mono_r; lia). lia.
Qed.

End RoundFacts.

Section SumFacts.

Lemma feq_refl (x : float) : feq x x.
Proof. destruct x; cbn; [reflexivity | done | done]. Qed.

Lemma sum_abs_nonneg (zs : list Z) : (0 <= foldr Z.add 0%Z (map Z.abs zs))%Z.
Proof. induction zs; cbn [foldr map]; lia. Qed.

Lemma foldl_fadd_integers (xs : list float) (zs : list Z) (acc : float) (k : Z) :
  feq acc (Finite (inject_Z k)) ->
  Forall2 (fun x z => feq x (Finite (inject_Z z))) xs zs ->
  (Z.abs k + foldr Z.add 0%Z (map Z.abs zs) < 2 ^ 53)%Z ->
  feq (foldl fadd acc xs) (Finite (inject_Z (k + foldr Z.add 0%Z zs))).
Proof.
  intros Hacc Hxs. revert acc k Hacc.
  induction Hxs as [|x z xs zs Hx Hxs IH]; intros acc k Hacc Hb; cbn [foldl foldr map] in *.
  - by rewrite Z.add_0_r.
  - pose proof (sum_abs_nonneg zs) as Hpos.
    rewrite Z.add_assoc. apply IH; [|lia].
    destruct acc as [a| |]; [|done..]. destruct x as [q| |]; [|done..].
    cbn in Hacc, Hx. cbn [fadd].
    assert (a + q == inject_Z (k + z))%Q as H
      by (rewrite inject_Z_plus, Hacc, Hx; reflexivity).
    rewrite (b64_comp _ _ H), b64_int by lia. apply feq_refl.
Qed.

(** The loop is exact on integers. *)
Lemma fsum_exact : exact_on_integers fsum.
Proof.
  intros xs zs Hxs Hb. unfold fsum.
  apply (foldl_fadd_integers xs zs (Finite 0%Q) 0%Z); [reflexivity | done | lia].
Qed.

(** The mean of floats that stand for integers is the quotient of the sum
    of the integers by their number, rounded once. *)
Lemma mean_integers (sum : list float -> float) (xs : list float) (zs : list Z) :
  exact_on_integers sum ->
  Forall2 (fun x z => feq x (Finite (inject_Z z))) xs zs ->
  xs <> [] ->
  (foldr Z.add 0%Z (map Z.abs zs) < 2 ^ 53)%Z ->
  mean sum xs = b64 (inject_Z (foldr Z.add 0%Z zs) / inject_Z (Z.of_nat (length zs)))%Q.
Proof.
  intros Hsum Hxs Hne Hb. unfold mean.
  assert (List.filter (fun x => negb (is_nan x)) xs = xs) as ->.
  { clear Hne Hb. induction Hxs as [|x z xs zs Hx _ IH]; [done|].
    cbn [List.filter]. destruct x; [|done..]. cbn. by rewrite IH. }
  destruct xs as [|x xs]; [done|].
  pose proof (Hsum _ _ Hxs Hb) as Hs.
  destruct (sum (x :: xs)) as [s| |]; [|done..]. cbn in Hs. cbn [fdiv].
  rewrite (Forall2_length _ _ _ Hxs).
  assert (Qeq_bool (inject_Z (Z.of_nat (length zs))) 0 = false) as ->.
  { apply not_true_is_false. intros H%Qeq_bool_iff. unfold Qeq in H. cbn in H.
    apply Forall2_length in Hxs. cbn in Hxs. lia. }
  apply b64_comp. by rewrite Hs.
Qed.

Lemma b64_five_halves (q : Q) : (q == 5 # 2)%Q -> b64 q = Finite (5 # 2)%Q.
Proof. intros H. rewrite (b64_comp _ _ H). by vm_compute. Qed.

End SumFacts.

(** ** The scope summary *)

Lemma maturity_label_Int (z : Z) :
  maturity_label (Int z)
  = match z with
    | 1 => Some "Bronze"
    | 2 => Some "Silver"
    | 3 => Some "Gold"
    | _ => None
    end%Z.
Proof.
  unfold maturity_label, cell_eqb, cell_num, Qeq_bool. simpl. rewrite !Z.mul_1_r.
  destruct (Z.eqb_spec z 1) as [->|H1]; [done|].
  destruct (Z.eqb_spec z 2) as [->|H2]; [done|].
  destruct (Z.eqb_spec z 3) as [->|H3]; [done|].
  destruct z as [|[[p|p|]|[p|p|]|]|p]; done.
Qed.

Section SummaryFacts.
Variable float_of_str : string -> option float.
Variable array_sum : list float -> float.

Lemma existsb_dropna (f : cell -> bool) (s : list cell) :
  existsb f s = false -> existsb f (dropna s) = false.
Proof.
  intros H. apply not_true_is_false. intros (x & Hx & Hf)%existsb_exists.
  apply filter_In in Hx as [Hx _]. apply not_true_iff_false in H. apply H, existsb_exists.
  eauto.
Qed.

(** On a series without strings, [astype(float)] is the conversion of each
    cell. *)
Lemma astype_float_numeric (s : list cell) :
  existsb is_str s = false ->
  astype_float float_of_str s = Ok (omap to_float s).
Proof.
  unfold astype_float.
  induction s as [|c s IH]; [done|]. cbn [existsb mapM omap].
  destruct c; cbn [is_str to_float orb]; try done;
    intros H; rewrite (IH H); reflexivity.
Qed.

Lemma holds_integers_no_str (cs : list cell) (zs : list Z) :
  holds_integers cs zs -> existsb is_str cs = false.
Proof.
  induction 1 as [|c z cs zs Hc _ IH]; [done|]. cbn [existsb].
  rewrite IH. by destruct c.
Qed.

Lemma abs_le_sum_abs (z : Z) (zs : list Z) :
  z ∈ zs -> (Z.abs z <= foldr Z.add 0%Z (map Z.abs zs))%Z.
Proof.
  pose proof sum_abs_nonneg as Hpos.
  induction zs as [|y zs IH]; [by intros ?%elem_of_nil|].
  cbn [foldr map]. intros [->|H]%elem_of_cons.
  - specialize (Hpos zs). lia.
  - specialize (IH H). lia.
Qed.

(** Cells that hold integers convert to the floats of these integers. *)
Lemma to_float_integers (cs : list cell) (zs : list Z) :
  holds_integers cs zs ->
  (foldr Z.add 0%Z (map Z.abs zs) < 2 ^ 53)%Z ->
  Forall2 (fun x z => feq x (Finite (inject_Z z))) (omap to_float cs) zs.
Proof.
  intros H. induction H as [|c z cs zs Hc _ IH]; intros Hb; [constructor|].
  assert (Z.abs z < 2 ^ 53)%Z as Hz
    by (pose proof (abs_le_sum_abs z (z :: zs) (list_elem_of_here _ _)); lia).
  assert (foldr Z.add 0%Z (map Z.abs zs) < 2 ^ 53)%Z as Hb' by (cbn [foldr map] in Hb; lia).
  destruct c as [|y|q|s|s]; try discriminate Hc; cbn [omap to_float].
  - constructor; [|by apply IH]. unfold cell_eqb, cell_num in Hc.
    apply Qeq_bool_iff in Hc. unfold Qeq in Hc. cbn in Hc.
    assert (y = z) as -> by lia. rewrite b64_int by done. apply feq_refl.
  - constructor; [|by apply IH]. unfold cell_eqb, cell_num in Hc.
    by apply Qeq_bool_iff in Hc.
Qed.

Lemma dropna_holds_integers (cs : list cell) (zs : list Z) :
  holds_integers cs zs -> dropna cs = cs.
Proof.
  induction 1 as [|c z cs zs Hc _ IH]; [done|]. unfold dropna in *. cbn [List.filter].
  rewrite IH. by destruct c.
Qed.

End SummaryFacts.

(** C2, as the code has it. When no score of the row set is a string and
    the maturity values that are not missing convert to floats, the tier of
    the scope summary is the image under 1 -> Bronze, 2 -> Silver, 3 -> Gold
    of the rounded mean of these values.  The mean is the one of binary64:
    the sum of the values, divided by their number, the quotient rounded to
    the nearest float; for values that are integers, whose sum is exact, it
    is the arithmetic mean rounded once.  The rounding of the mean is to the
    nearest integer, to the even one from a midpoint.  So a mean of exactly
    2.5 gives the tier "Silver".  A mean that is infinite or not a number has
    no tier: [round] raises. *)
Theorem scope_summary_tier (float_of_str : string -> option float)
    (array_sum : list float -> float)
    (score_series mat_series : list cell) (fs : list float) :
  existsb is_str score_series = false ->
  dropna mat_series <> [] ->
  astype_float float_of_str (dropna mat_series) = Ok fs ->
  (forall q, mean array_sum fs = Finite q ->
     maturity <$> render_scope_summary float_of_str array_sum score_series mat_series
     = Ok (match py_round q with
           | 1 => Some "Bronze"
           | 2 => Some "Silver"
           | 3 => Some "Gold"
           | _ => None
           end%Z)
     /\ (Qabs (q - inject_Z (py_round q)) <= 1 # 2)%Q
     /\ ((Qabs (q - inject_Z (py_round q)) == 1 # 2)%Q -> Z.even (py_round q) = true)
     /\ ((q == 5 # 2)%Q ->
           maturity <$> render_scope_summary float_of_str array_sum score_series mat_series
           = Ok (Some "Silver")))
  /\ (forall zs, exact_on_integers array_sum ->
        holds_integers (dropna mat_series) zs ->
        (foldr Z.add 0%Z (map Z.abs zs) < 2 ^ 53)%Z ->
        mean array_sum fs
        = b64 (inject_Z (foldr Z.add 0%Z zs) / inject_Z (Z.of_nat (length zs)))%Q
        /\ ((2 * foldr Z.add 0%Z zs = 5 * Z.of_nat (length zs))%Z ->
              maturity <$> render_scope_summary float_of_str array_sum
                             score_series mat_series
              = Ok (Some "Silver")))
  /\ (forall s, mean array_sum fs = Infinite s ->
        render_scope_summary float_of_str array_sum score_series mat_series
        = Raise OverflowError)
  /\ (mean array_sum fs = Nan ->
        render_scope_summary float_of_str array_sum score_series mat_series
        = Raise ValueError).
Proof.
  intros Hss Hne Hfs.
  assert (exists sc, match dropna score_series with
                     | [] => Ok None
                     | s => Some <$> series_mean array_sum s
                     end = Ok sc) as [sc Hsc].
  { destruct (dropna score_series) as [|c l] eqn:Hd; [by eexists|].
    unfold series_mean. rewrite <- Hd, existsb_dropna by done. by eexists. }
  assert (render_scope_summary float_of_str array_sum score_series mat_series
          = (z ← round_float (mean array_sum fs);
             Ok {| score := sc; maturity := maturity_label (Int z) |})) as Hr.
  { unfold render_scope_summary. rewrite Hsc, bind_Ok.
    destruct (dropna mat_series) as [|c l] eqn:E; [done|].
    rewrite Hfs, bind_Ok. by destruct (round_float _). }
  assert (forall q, mean array_sum fs = Finite q ->
            maturity <$> render_scope_summary float_of_str array_sum score_series mat_series
            = Ok (match py_round q with
                  | 1 => Some "Bronze"
                  | 2 => Some "Silver"
                  | 3 => Some "Gold"
                  | _ => None
                  end%Z)) as Hfin.
  { intros q Hq. rewrite Hr, Hq. cbn [round_float]. rewrite bind_Ok.
    cbn [fmap result_fmap maturity]. by rewrite maturity_label_Int. }
  split; [|split; [|split]].
  - intros q Hq. split; [by apply Hfin|].
    destruct (py_round_nearest_even q) as [H1 H2]. split; [done|]. split; [done|].
    intros H. rewrite (Hfin q Hq). by rewrite (py_round_comp _ _ H).
  - intros zs Hsum Hzs Hb.
    assert (fs = omap to_float (dropna mat_series)) as ->.
    { rewrite astype_float_numeric in Hfs by (by apply (holds_integers_no_str _ zs)).
      by injection Hfs. }
    assert (mean array_sum (omap to_float (dropna mat_series))
            = b64 (inject_Z (foldr Z.add 0%Z zs) / inject_Z (Z.of_nat (length zs)))%Q)
      as Hm.
    { apply mean_integers; [done | by apply to_float_integers | | done].
      destruct (dropna mat_series) as [|c l]; [done|].
      inversion Hzs as [|? z ? ? Hc _]; subst.
      destruct c; try discriminate Hc; done. }
    split; [done|]. intros H.
    assert (zs <> []) as Hzne.
    { intros ->. inversion Hzs as [E|]. by rewrite <- E in Hne. }
    assert (inject_Z (foldr Z.add 0%Z zs) / inject_Z (Z.of_nat (length zs)) == 5 # 2)%Q
      as Hq.
    { assert (0 < Z.of_nat (length zs))%Z as Hl by (destruct zs; [done | cbn; lia]).
      assert (0 < inject_Z (Z.of_nat (length zs)))%Q as HlQ
        by (rewrite <- (Zlt_Qlt 0); exact Hl).
      apply (Qmult_inj_r _ _ (inject_Z (2 * Z.of_nat (length zs)))).
      - rewrite inject_Z_mult. change (inject_Z 2) with (2 # 1)%Q. lra.
      - transitivity (inject_Z (2 * foldr Z.add 0%Z zs)).
        + rewrite !inject_Z_mult. field. lra.
        + rewrite H, !inject_Z_mult. change (inject_Z 5) with (5 # 1)%Q.
          change (inject_Z 2) with (2 # 1)%Q. field. }
    rewrite (b64_five_halves _ Hq) in Hm.
    rewrite (Hfin _ Hm). reflexivity.
  - intros s Hs. by rewrite Hr, Hs.
  - intros Hn. by rewrite Hr, Hn.
Qed.

Lemma scope_summary_tier_witness :
  maturity <$> render_scope_summary (fun _ => None) fsum
                 [Float (60 # 1); NaN] [Int 3; NaN; Float (3 # 1); Int 2; Int 2]
  = Ok (Some "Silver")
  /\ maturity <$> render_scope_summary (fun _ => None) fsum
                    [] [Float double_1_8; Float double_2_7; Float (3 # 1)]
     = Ok (Some "Silver").
Proof.
  split.
  - refine (proj2 (proj1 (proj2 (scope_summary_tier (fun _ => None) fsum
             [Float (60 # 1); NaN] [Int 3; NaN; Float (3 # 1); Int 2; Int 2]
             _ _ _ _)) [3; 3; 2; 2]%Z fsum_exact _ _) _).
    + reflexivity.
    + discriminate.
    + reflexivity.
    + repeat constructor.
    + vm_compute. reflexivity.
    + reflexivity.
  - refine (proj2 (proj2 (proj2 (proj1 (scope_summary_tier (fun _ => None) fsum
             [] [Float double_1_8; Float double_2_7; Float (3 # 1)]
             _ _ _ _) (5 # 2)%Q _))) _).
    + reflexivity.
    + discriminate.
    + reflexivity.
    + by vm_compute.
    + reflexivity.
Defined.

(** C2, as the claim has it, fails: the maturity values 2 and 3 have the
    mean 2.5, but a score that is a string leaves the row set without a
    tier; the summary raises. *)
Lemma scope_summary_string_score_raises :
  mean fsum [Finite (2 # 1); Finite (3 # 1)] = Finite (5 # 2)
  /\ render_scope_summary (fun _ => None) fsum [Str "pending"; Float (60 # 1)] [Int 2; Int 3]
     = Raise TypeError.
Proof. split; by vm_compute. Qed.
(** ** The label normalizer *)

Section CleanFacts.
Import PyStr.

Lemma thin_refl (s : string) : thin s s.
Proof. induction s; by constructor. Qed.

Lemma thin_sub_spaces (b : bool) (s : string) : thin s (sub_spaces_from b s).
Proof.
  revert b. induction s as [|c s IH]; intros b; simpl; [constructor|].
  destruct (is_space c) eqn:Hc; [destruct b|]; by constructor.
Qed.

Lemma thin_lstrip (s : string) : thin s (lstrip s).
Proof.
  induction s as [|c s IH]; simpl; [constructor|].
  destruct (is_space c) eqn:Hc; [by constructor | apply thin_refl].
Qed.

Lemma thin_rstrip (s : string) : thin s (rstrip s).
Proof.
  induction s as [|c s IH]; simpl; [constructor|].
  destruct (rstrip s) as [|a r]; [|by constructor].
  destruct (is_space c) eqn:Hc; by constructor.
Qed.

Lemma thin_has_char (a : ascii) (s t : string) :
  is_space a = false -> thin s t -> has_char a t = has_char a s.
Proof.
  intros Ha. induction 1 as [|c s t _ IH|c s t Hc _ IH|c s t Hc _ IH];
    cbn [has_char]; [done|..].
  - by rewrite IH.
  - rewrite IH. destruct (Ascii.eqb_spec c a) as [->|]; [congruence|done].
  - rewrite IH. destruct (Ascii.eqb_spec c a) as [->|]; [congruence|].
    destruct (Ascii.eqb_spec " " a) as [<-|]; [by vm_compute in Ha | done].
Qed.

Lemma thin_lt_then_gt (s t : string) : thin s t -> lt_then_gt t = lt_then_gt s.
Proof.
  induction 1 as [|c s t H IH|c s t Hc H IH|c s t Hc H IH];
    cbn [lt_then_gt]; [done|..].
  - by rewrite IH, (thin_has_char ">" s t).
  - rewrite IH. destruct (Ascii.eqb_spec c "<") as [->|]; [by vm_compute in Hc | done].
  - rewrite IH. destruct (Ascii.eqb_spec c "<") as [->|]; [by vm_compute in Hc | done].
Qed.

Lemma closes_one_line (s : string) :
  has_char "010" s = false -> closes s = has_char ">" s.
Proof.
  induction s as [|c s IH]; simpl; [done|].
  intros [H1 H2]%orb_false_iff. rewrite H1. destruct (Ascii.eqb c ">"); [done|]. by apply IH.
Qed.

Lemma closes_has_char (s : string) : closes s = true -> has_char ">" s = true.
Proof.
  induction s as [|c s IH]; simpl; [done|].
  destruct (Ascii.eqb c ">"); [done|]. destruct (Ascii.eqb c "010"); [done|]. apply IH.
Qed.

Lemma lt_then_gt_markup (s : string) : lt_then_gt s = false -> has_markup s = false.
Proof.
  induction s as [|c s IH]; simpl; [done|].
  intros [H1 H2]%orb_false_iff. rewrite (IH H2), orb_false_r.
  destruct (Ascii.eqb c "<"); [|done]. simpl in *.
  destruct (closes s) eqn:E; [|done]. by rewrite (closes_has_char _ E) in H1.
Qed.

Lemma has_char_sub_tags (a : ascii) (b : bool) (s : string) :
  has_char a s = false -> has_char a (sub_tags_from b s) = false.
Proof.
  revert b. induction s as [|c s IH]; intros b; simpl; [done|].
  intros [H1 H2]%orb_false_iff.
  destruct b; [by apply IH|].
  destruct (Ascii.eqb c "<" && closes s); [by apply IH|].
  simpl. by rewrite H1, IH.
Qed.

Lemma sub_tags_one_line (b : bool) (s : string) :
  has_char "010" s = false -> lt_then_gt (sub_tags_from b s) = false.
Proof.
  revert b. induction s as [|c s IH]; intros b; simpl; [done|].
  intros [H1 H2]%orb_false_iff.
  destruct b; [by apply IH|].
  destruct (Ascii.eqb c "<") eqn:Hc; simpl.
  - destruct (closes s) eqn:Hcl; [by apply IH|].
    simpl. rewrite Hc, IH by done. simpl. rewrite orb_false_r.
    apply has_char_sub_tags. by rewrite <- closes_one_line.
  - by rewrite Hc, IH.
Qed.

End CleanFacts.
Section CleanSteps.
Import PyStr.

Lemma starts_space_sub_spaces (s : string) :
  starts_space (sub_spaces_from true s) = false.
Proof.
  induction s as [|c s IH]; cbn [sub_spaces_from]; [done|].
  destruct (is_space c) eqn:Hc; [done|]. exact Hc.
Qed.

Lemma single_spaced_sub_spaces (b : bool) (s : string) :
  single_spaced (sub_spaces_from b s) = true.
Proof.
  revert b. induction s as [|c s IH]; intros b; cbn [sub_spaces_from]; [done|].
  destruct (is_space c) eqn:Hc.
  - destruct b; [apply IH|]. cbn [single_spaced].
    by rewrite starts_space_sub_spaces, IH.
  - cbn [single_spaced]. by rewrite Hc, IH.
Qed.

Lemma starts_space_lstrip (s : string) : starts_space (lstrip s) = false.
Proof.
  induction s as [|c s IH]; cbn [lstrip]; [done|].
  destruct (is_space c) eqn:Hc; [done|]. exact Hc.
Qed.

Lemma single_spaced_tail (c : ascii) (s : string) :
  single_spaced (String c s) = true -> single_spaced s = true.
Proof. cbn [single_spaced]. by intros [_ ?]%andb_true_iff. Qed.

Lemma single_spaced_lstrip (s : string) :
  single_spaced s = true -> single_spaced (lstrip s) = true.
Proof.
  induction s as [|c s IH]; cbn [lstrip]; [done|].
  destruct (is_space c); [|done]. intros H. by apply IH, (single_spaced_tail c).
Qed.

Lemma starts_space_rstrip (s : string) :
  starts_space s = false -> starts_space (rstrip s) = false.
Proof.
  destruct s as [|c s]; cbn [rstrip starts_space]; [done|].
  intros Hc. destruct (rstrip s); [by rewrite Hc | done].
Qed.

Lemma ends_space_rstrip (s : string) : ends_space (rstrip s) = false.
Proof.
  induction s as [|c s IH]; cbn [rstrip]; [done|].
  destruct (rstrip s) as [|a r].
  - destruct (is_space c) eqn:Hc; [done|]. exact Hc.
  - exact IH.
Qed.

Lemma single_spaced_rstrip (s : string) :
  single_spaced s = true -> single_spaced (rstrip s) = true.
Proof.
  induction s as [|c s IH]; cbn [rstrip]; [done|].
  intros H. pose proof (single_spaced_tail _ _ H) as Ht. specialize (IH Ht).
  cbn [single_spaced] in H. apply andb_true_iff in H as [H _].
  destruct (rstrip s) as [|a r] eqn:Hr.
  - destruct (is_space c) eqn:Hc; [done|]. cbn [single_spaced]. by rewrite Hc.
  - cbn [single_spaced] in IH |- *. rewrite IH, andb_true_r.
    destruct (is_space c); [|done].
    apply andb_true_iff in H as [H1 H2]. rewrite H1. cbn [andb].
    apply negb_true_iff. apply negb_true_iff in H2.
    destruct (starts_space (String a r)) eqn:E; [|done].
    rewrite <- Hr in E. destruct (starts_space s) eqn:E'; [done|].
    by rewrite (starts_space_rstrip s E') in E.
Qed.

(** Each step of [clean_label] leaves alone a string that has nothing for
    it to do. *)
Lemma sub_tags_fixed (s : string) : has_markup s = false -> sub_tags s = s.
Proof.
  unfold sub_tags. induction s as [|c s IH]; cbn [has_markup sub_tags_from]; [done|].
  intros [H1 H2]%orb_false_iff. rewrite H1. by rewrite IH.
Qed.

Lemma sub_spaces_fixed (b : bool) (s : string) :
  single_spaced s = true -> (b = true -> starts_space s = false) ->
  sub_spaces_from b s = s.
Proof.
  revert b. induction s as [|c s IH]; intros b; cbn [single_spaced sub_spaces_from]; [done|].
  intros [H1 H2]%andb_true_iff Hb. cbn [starts_space] in Hb.
  destruct (is_space c) eqn:Hc.
  - destruct b; [by specialize (Hb eq_refl)|].
    apply andb_true_iff in H1 as [H1 H3]. apply Ascii.eqb_eq in H1 as ->.
    rewrite IH; [done..|]. intros _. by apply negb_true_iff.
  - rewrite IH; [done..|]. done.
Qed.

Lemma lstrip_fixed (s : string) : starts_space s = false -> lstrip s = s.
Proof. destruct s as [|c s]; cbn [starts_space lstrip]; [done|]. by intros ->. Qed.

Lemma rstrip_fixed (s : string) : ends_space s = false -> rstrip s = s.
Proof.
  induction s as [|c s IH]; [done|].
  destruct s as [|a r].
  - cbn [ends_space rstrip]. by intros ->.
  - intros H. change (ends_space (String a r) = false) in H.
    cbn [rstrip] in IH |- *. by rewrite (IH H).
Qed.

Lemma is_clean_fixed (s : string) :
  is_clean s = true -> clean_label (Some s) = Some s.
Proof.
  unfold is_clean, clean_label, strip, sub_spaces.
  intros [[[H1%negb_true_iff H2]%andb_true_iff H3%negb_true_iff]%andb_true_iff
          H4%negb_true_iff]%andb_true_iff.
  rewrite (sub_tags_fixed s H1), (sub_spaces_fixed false s H2) by done.
  by rewrite (lstrip_fixed s H3), (rstrip_fixed s H4).
Qed.

(** The steps after the removal of the tags keep the angle brackets. *)
Lemma lt_then_gt_clean (s : string) :
  lt_then_gt (strip (sub_spaces (sub_tags s))) = lt_then_gt (sub_tags s).
Proof.
  unfold strip, sub_spaces.
  rewrite (thin_lt_then_gt _ _ (thin_rstrip _)), (thin_lt_then_gt _ _ (thin_lstrip _)).
  by rewrite (thin_lt_then_gt _ _ (thin_sub_spaces _ _)).
Qed.

(** When the removal of the tags leaves no [<] with a [>] after it, the
    cleaned label is clean. *)
Lemma clean_label_no_pair (s : string) :
  lt_then_gt (sub_tags s) = false ->
  is_clean (strip (sub_spaces (sub_tags s))) = true.
Proof.
  intros Hp. unfold is_clean.
  rewrite (lt_then_gt_markup _ (eq_trans (lt_then_gt_clean s) Hp)).
  unfold strip, sub_spaces.
  rewrite single_spaced_rstrip
    by (apply single_spaced_lstrip, single_spaced_sub_spaces).
  rewrite starts_space_rstrip by apply starts_space_lstrip.
  by rewrite ends_space_rstrip.
Qed.

Lemma no_lt_no_pair (s : string) : has_char "<" s = false -> lt_then_gt s = false.
Proof.
  induction s as [|c s IH]; cbn [has_char lt_then_gt]; [done|].
  intros [-> H]%orb_false_iff. by rewrite IH.
Qed.

Lemma single_spaced_one_line (s : string) :
  single_spaced s = true -> has_char "010" s = false.
Proof.
  induction s as [|c s IH]; cbn [single_spaced has_char]; [done|].
  intros [H1 H2]%andb_true_iff. rewrite (IH H2), orb_false_r.
  destruct (Ascii.eqb_spec c "010") as [->|]; [by vm_compute in H1 | done].
Qed.

(** On one line a [<] with a [>] after it is a tag. *)
Lemma one_line_markup (s : string) :
  has_char "010" s = false -> lt_then_gt s = true -> has_markup s = true.
Proof.
  induction s as [|c s IH]; cbn [has_char lt_then_gt has_markup]; [done|].
  intros [H1 H2]%orb_false_iff. rewrite (closes_one_line s H2).
  intros [->|H]%orb_true_iff; [done|]. rewrite (IH H2 H). apply orb_true_r.
Qed.

Lemma thin_length (s t : string) : thin s t -> (String.length t <= String.length s)%nat.
Proof. induction 1; cbn [String.length]; lia. Qed.

Lemma sub_tags_length (b : bool) (s : string) :
  (String.length (sub_tags_from b s) <= String.length s)%nat.
Proof.
  revert b. induction s as [|c s IH]; intros b; cbn [sub_tags_from String.length]; [done|].
  destruct b; [specialize (IH (negb (Ascii.eqb c ">"))); lia|].
  destruct (Ascii.eqb c "<" && closes s).
  - specialize (IH true). lia.
  - cbn [String.length]. specialize (IH false). lia.
Qed.

(** The removal of a tag shortens the label. *)
Lemma sub_tags_shrinks (s : string) :
  has_markup s = true -> (String.length (sub_tags s) < String.length s)%nat.
Proof.
  unfold sub_tags.
  induction s as [|c s IH]; cbn [has_markup sub_tags_from String.length]; [done|].
  destruct (Ascii.eqb c "<" && closes s).
  - intros _. pose proof (sub_tags_length true s). lia.
  - cbn [orb String.length]. intros H. specialize (IH H). lia.
Qed.

Lemma clean_length (s : string) :
  (String.length (strip (sub_spaces (sub_tags s))) <= String.length (sub_tags s))%nat.
Proof.
  unfold strip, sub_spaces.
  pose proof (thin_length _ _ (thin_rstrip (lstrip (sub_spaces_from false (sub_tags s))))).
  pose proof (thin_length _ _ (thin_lstrip (sub_spaces_from false (sub_tags s)))).
  pose proof (thin_length _ _ (thin_sub_spaces false (sub_tags s))). lia.
Qed.

(** Cleaning twice is cleaning once exactly when the removal of the tags
    leaves no [<] with a [>] after it. *)
Lemma clean_twice_iff (s : string) :
  clean_label (clean_label (Some s)) = clean_label (Some s)
  <-> lt_then_gt (sub_tags s) = false.
Proof.
  cbn [clean_label]. set (u := strip (sub_spaces (sub_tags s))). split.
  - intros [= H]. destruct (lt_then_gt (sub_tags s)) eqn:Hp; [exfalso|done].
    assert (has_markup u = true) as Hm.
    { apply one_line_markup; [|unfold u; by rewrite lt_then_gt_clean].
      apply single_spaced_one_line. unfold u, strip, sub_spaces.
      apply single_spaced_rstrip, single_spaced_lstrip, single_spaced_sub_spaces. }
    pose proof (sub_tags_shrinks u Hm). pose proof (clean_length u).
    rewrite H in *. lia.
  - intros Hp. apply (is_clean_fixed u), (clean_label_no_pair s Hp).
Qed.

End CleanSteps.


(** C7. [clean_label] returns a clean label as it is (no angle-bracket
    markup, every whitespace character a space on its own, no whitespace at
    either end), but it is not idempotent.  The pattern of the tags does not
    match across a line feed, which the next step turns into a space: a tag
    with a line feed inside is still there after one cleaning, and gone
    after two.  Cleaning twice is cleaning once exactly for the labels in
    which the removal of the tags leaves no [<] with a [>] after it, among
    them every label without [<] and every label without a line feed. *)
Theorem clean_label_idempotent_iff :
  (clean_label (Some multiline_tag) = Some "<div id=x>Fridge"
   /\ clean_label (clean_label (Some multiline_tag)) = Some "Fridge")
  /\ (forall s, is_clean s = true -> clean_label (Some s) = Some s)
  /\ (forall s, clean_label (clean_label (Some s)) = clean_label (Some s)
                <-> lt_then_gt (PyStr.sub_tags s) = false)
  /\ (forall s, has_char "<" s = false \/ has_char "010" s = false ->
        clean_label (clean_label (Some s)) = clean_label (Some s))
  /\ clean_label (clean_label None) = clean_label None.
Proof.
  split; [split; reflexivity|]. split; [apply is_clean_fixed|].
  split; [apply clean_twice_iff|]. split; [|done].
  intros s [H|H]; apply clean_twice_iff.
  - by apply no_lt_no_pair, has_char_sub_tags.
  - by apply sub_tags_one_line.
Qed.

Lemma clean_label_idempotent_iff_witness :
  clean_label (Some "Fridge temp") = Some "Fridge temp"
  /\ clean_label (clean_label (Some "  <b>Fridge</b>   temp "))
     = clean_label (Some "  <b>Fridge</b>   temp ")
  /\ clean_label (clean_label (Some ("Fridge >" +:+ String "010" " temp")))
     = clean_label (Some ("Fridge >" +:+ String "010" " temp")).
Proof.
  destruct clean_label_idempotent_iff as (_ & Hclean & _ & Hidem & _).
  split; [|split].
  - apply Hclean. reflexivity.
  - apply Hidem. right. reflexivity.
  - apply Hidem. left. reflexivity.
Defined.
(** ** The facility table *)

Section KeyFacts.

Lemma cell_eqb_sym (a b : cell) : cell_eqb a b = true -> cell_eqb b a = true.
Proof.
  destruct a, b; cbn [cell_eqb cell_num]; try done.
  - rewrite !Qeq_bool_iff. by intros ->.
  - rewrite !Qeq_bool_iff. by intros ->.
  - rewrite !Qeq_bool_iff. by intros ->.
  - rewrite !Qeq_bool_iff. by intros ->.
  - rewrite !String.eqb_eq. by intros ->.
  - by intros ->%eqb_prop; destruct neg0.
Qed.

Lemma cell_eqb_trans (a b c : cell) :
  cell_eqb a b = true -> cell_eqb b c = true -> cell_eqb a c = true.
Proof.
  destruct a, b, c; cbn [cell_eqb cell_num]; try done;
    try (rewrite !Qeq_bool_iff; intros -> ->; reflexivity).
  - rewrite !String.eqb_eq. by intros -> ->.
  - by intros ->%eqb_prop ->%eqb_prop; destruct neg1.
Qed.

Lemma cell_eqb_refl (a : cell) : isna a = false -> cell_eqb a a = true.
Proof.
  destruct a; cbn [cell_eqb cell_num isna]; try done; intros _.
  - by apply Qeq_bool_iff.
  - by apply Qeq_bool_iff.
  - apply String.eqb_refl.
  - by destruct neg.
Qed.

Lemma cell_eqb_notna (a b : cell) : cell_eqb a b = true -> isna b = false.
Proof. by destruct a, b. Qed.




Lemma key_eqb_complete (k1 k2 : list cell) :
  key_eqb k1 k2 = true -> key_complete k2 = true.
Proof.
  unfold key_complete. revert k2.
  induction k1 as [|a k1 IH]; intros [|b k2]; cbn [key_eqb forallb]; try done.
  intros [H1 H2]%andb_true_iff. by rewrite (cell_eqb_notna _ _ H1), (IH _ H2).
Qed.







End KeyFacts.

Section TableFacts.
Variable group_sum : list float -> float.

Lemma filter_map_comm {A B} (f : B -> bool) (g : A -> B) (l : list A) :
  List.filter f (map g l) = map g (List.filter (fun x => f (g x)) l).
Proof.
  induction l as [|a l IH]; cbn [map List.filter]; [done|].
  destruct (f (g a)); cbn [map]; by rewrite IH.
Qed.

Lemma filter_filter_and {A} (f g : A -> bool) (l : list A) :
  List.filter f (List.filter g l) = List.filter (fun x => g x && f x) l.
Proof.
  induction l as [|a l IH]; cbn [List.filter]; [done|].
  destruct (g a); cbn [List.filter andb]; [|done]. destruct (f a); by rewrite IH.
Qed.

Lemma present_base_fresh (df : DataFrame) (c : string) :
  c ∈ present df [COUNTY_COL; SUBCOUNTY_COL; FACILITY_COL] ->
  c ∈ [COUNTY_COL; SUBCOUNTY_COL; FACILITY_COL].
Proof. by intros [? _]%elem_of_present. Qed.

Lemma cell_at_insert_ne (r : gmap string cell) (c c' : string) (v : cell) :
  c <> c' -> cell_at (<[c := v]> r) c' = cell_at r c'.
Proof. intros H. unfold cell_at. by rewrite lookup_insert_ne. Qed.

Lemma cell_at_insert_eq (r : gmap string cell) (c : string) (v : cell) :
  cell_at (<[c := v]> r) c = v.
Proof. unfold cell_at. by rewrite lookup_insert_eq. Qed.

Lemma group_key_tiered (df : DataFrame) (m : string) (r : gmap string cell) :
  group_key (facility_keys df)
    (<["Maturity Category" := tier_cell (maturity_label (cell_at r m))]> r)
  = facility_key df m r.
Proof.
  unfold group_key, facility_keys, facility_key. rewrite map_app. cbn [map].
  rewrite cell_at_insert_eq. f_equal. apply map_ext_in. intros c Hc.
  apply cell_at_insert_ne. apply list_elem_of_In, present_base_fresh in Hc.
  rewrite !elem_of_cons, elem_of_nil in Hc. intros <-.
  destruct Hc as [?|[?|[?|[]]]]; discriminate.
Qed.

Lemma facility_members_eq (df : DataFrame) (m : string) (k : list cell) :
  List.filter (fun r => key_eqb k (facility_key df m r))
    (List.filter (fun r => negb (isna (cell_at r m))
                           && key_complete (facility_key df m r)) (rows df))
  = facility_members df m k.
Proof.
  rewrite filter_filter_and. unfold facility_members. apply filter_ext. intros r.
  destruct (negb (isna (cell_at r m))); cbn [andb]; [|done].
  destruct (key_eqb k (facility_key df m r)) eqn:E; [|apply andb_false_r].
  by rewrite (key_eqb_complete _ _ E).
Qed.

Lemma groupby_mean_tiered (df : DataFrame) (s m : string) (cols : list string) :
  s ∈ cols -> s <> "Maturity Category" ->
  (forall r, r ∈ rows df -> is_str (cell_at r s) = false) ->
  groupby_mean group_sum {| columns := cols; rows := tiered_rows df m |} (facility_keys df) s
  = Ok {| columns := facility_keys df ++ [s];
          rows := map (fun k => group_row (facility_keys df) s k
                                  (group_mean group_sum (map (fun r => cell_at r s)
                                                   (facility_members df m k))))
                      (facility_group_keys df m) |}.
Proof.
  intros Hs Hne Hnum. unfold groupby_mean. cbn [columns rows].
  rewrite decide_True by done.
  assert (forall r, cell_at (<["Maturity Category" :=
                                 tier_cell (maturity_label (cell_at r m))]> r) s
                    = cell_at r s) as Hsc
    by (intros r; by apply cell_at_insert_ne).
  assert (existsb (fun r => is_str (cell_at r s)) (tiered_rows df m) = false) as ->.
  { apply not_true_is_false. intros (r' & Hin & Hstr)%existsb_exists.
    unfold tiered_rows in Hin. apply in_map_iff in Hin as (r & <- & Hin).
    apply filter_In in Hin as [Hin _]. rewrite Hsc in Hstr.
    apply list_elem_of_In in Hin. by rewrite (Hnum r Hin) in Hstr. }
  f_equal. f_equal. unfold tiered_rows.
  rewrite filter_map_comm.
  rewrite (filter_ext _ (fun r => key_complete (facility_key df m r)))
    by (intros r; by rewrite group_key_tiered).
  rewrite filter_filter_and, map_map.
  rewrite (map_ext _ (facility_key df m)) by (intros r; apply group_key_tiered).
  fold (facility_group_keys df m).
  apply map_ext. intros k. f_equal. f_equal.
  unfold group_rows. rewrite filter_map_comm, map_map.
  rewrite (map_ext _ (fun r => cell_at r s)) by done. f_equal.
  rewrite (filter_ext _ (fun r => key_eqb k (facility_key df m r)))
    by (intros r; by rewrite group_key_tiered).
  apply facility_members_eq.
Qed.

End TableFacts.

Section TableRows.
Variable group_sum : list float -> float.

Lemma facility_keys_cases (df : DataFrame) :
  exists l : list string, facility_keys df = (l ++ ["Maturity Category"])%list
    /\ l = present df [COUNTY_COL; SUBCOUNTY_COL; FACILITY_COL]
    /\ NoDup (l ++ ["Maturity Category"])%list
    /\ (forall c, c ∈ l -> c ∈ [COUNTY_COL; SUBCOUNTY_COL; FACILITY_COL]).
Proof.
  exists (present df [COUNTY_COL; SUBCOUNTY_COL; FACILITY_COL]).
  split; [done|]. split; [done|]. split; [|apply present_base_fresh].
  unfold present. cbn [List.filter].
  destruct (bool_decide (COUNTY_COL ∈ columns df)),
    (bool_decide (SUBCOUNTY_COL ∈ columns df)),
    (bool_decide (FACILITY_COL ∈ columns df)); decide_closed.
Qed.

Lemma facility_keys_fresh (df : DataFrame) (c : string) :
  c ∉ [COUNTY_COL; SUBCOUNTY_COL; FACILITY_COL; "Maturity Category"; "Score (%)";
       "Maturity"] ->
  c ∉ facility_keys df.
Proof.
  intros Hc Hin. apply Hc. unfold facility_keys in Hin.
  apply elem_of_app in Hin as [Hin%present_base_fresh|Hin%list_elem_of_singleton].
  - rewrite !elem_of_cons, elem_of_nil in Hin. rewrite !elem_of_cons. tauto.
  - subst c. rewrite !elem_of_cons. tauto.
Qed.

Lemma score_name_fresh (df : DataFrame) : "Score (%)" ∉ facility_keys df.
Proof.
  unfold facility_keys. intros [Hin%present_base_fresh|Hin%list_elem_of_singleton]%elem_of_app.
  - rewrite !elem_of_cons, elem_of_nil in Hin. destruct Hin as [?|[?|[?|[]]]]; discriminate.
  - discriminate.
Qed.

Lemma icon_name_fresh (df : DataFrame) : "Maturity" ∉ facility_keys df.
Proof.
  unfold facility_keys. intros [Hin%present_base_fresh|Hin%list_elem_of_singleton]%elem_of_app.
  - rewrite !elem_of_cons, elem_of_nil in Hin. destruct Hin as [?|[?|[?|[]]]]; discriminate.
  - discriminate.
Qed.

Lemma length_facility_key (df : DataFrame) (m : string) (r : gmap string cell) :
  length (facility_key df m r) = length (facility_keys df).
Proof. unfold facility_key, facility_keys. by rewrite !length_app, length_map. Qed.

Lemma group_key_zip (keys : list string) (k : list cell) :
  NoDup keys -> length k = length keys ->
  group_key keys (list_to_map (zip keys k)) = k.
Proof.
  unfold group_key. revert k. induction keys as [|c keys IH]; intros [|a k]; try done.
  intros [Hc Hnd]%NoDup_cons [= Hlen]. cbn [zip zip_with list_to_map foldr map].
  cbn [fst snd curry]. rewrite cell_at_insert_eq. f_equal.
  rewrite <- (IH k Hnd Hlen) at 2. apply map_ext_in. intros c' Hc'.
  apply cell_at_insert_ne. intros <-. by apply Hc, list_elem_of_In.
Qed.

Lemma group_key_facility_row (df : DataFrame) (s : string) (k : list cell) (mn : cell) :
  s ∉ facility_keys df -> length k = length (facility_keys df) ->
  group_key (facility_keys df) (facility_row df s k mn) = k.
Proof.
  intros Hs Hlen. destruct (facility_keys_cases df) as (l & Hl & _ & Hnd & _).
  rewrite <- Hl in Hnd.
  rewrite <- (group_key_zip (facility_keys df) k Hnd Hlen) at 2.
  unfold group_key, facility_row, group_row. apply map_ext_in. intros c Hc%list_elem_of_In.
  unfold cell_at.
  rewrite lookup_insert_ne, lookup_insert_ne, lookup_delete_ne, lookup_insert_ne; [done|..].
  - by intros <-.
  - by intros <-.
  - intros <-. by apply (score_name_fresh df).
  - intros <-. by apply (icon_name_fresh df).
Qed.


(** The table, when the frame has both columns of the theme and the score
    column holds no string. *)
Lemma facility_maturity_table_rows (df : DataFrame) (theme s m : string) :
  dict_getitem THEME_SCORE_COLS theme = Ok s ->
  dict_getitem THEME_MATURITY_COLS theme = Ok m ->
  s ∈ columns df -> m ∈ columns df ->
  (forall r, r ∈ rows df -> is_str (cell_at r s) = false) ->
  facility_maturity_table group_sum df theme
  = Ok {| columns := facility_keys df ++ ["Score (%)"; "Maturity"];
          rows := sort_by (fun r r' => desc_le (cell_at r "Score (%)")
                                               (cell_at r' "Score (%)"))
                    (map (fun k => facility_row df s k
                                     (group_mean group_sum (map (fun r => cell_at r s)
                                                      (facility_members df m k))))
                         (facility_group_keys df m)) |}.
Proof.
  intros Hs Hm Hsi Hmi Hnum.
  pose proof (theme_col_fresh _ _ _ (or_introl eq_refl) Hs) as Hfs.
  assert (s <> "Maturity Category") as Hne
    by (intros ->; apply Hfs; rewrite !elem_of_cons; tauto).
  pose proof (facility_keys_fresh df s Hfs) as Hsk.
  rewrite (facility_maturity_table_eq group_sum df theme s m) by done.
  rewrite (groupby_mean_tiered group_sum df s m), bind_Ok; [|
    apply elem_of_app; left; apply elem_of_present; split; [|done];
    rewrite !elem_of_cons; tauto | done | done].
  unfold rename. cbn [columns rows]. rewrite decide_True
    by (apply elem_of_app; right; apply list_elem_of_here).
  assert (map (fun c => if String.eqb c s then "Score (%)" else c) (facility_keys df ++ [s])
          = facility_keys df ++ ["Score (%)"])%list as ->.
  { rewrite map_app. cbn [map]. rewrite String.eqb_refl. f_equal.
    rewrite <- (map_id (facility_keys df)) at 2. apply map_ext_in.
    intros c Hc%list_elem_of_In. destruct (String.eqb_spec c s) as [->|]; done. }
  rewrite getitem_present
    by (cbn [columns]; unfold facility_keys; rewrite <- app_assoc, !elem_of_app;
        right; left; apply list_elem_of_here).
  rewrite bind_Ok. unfold assign, sort_values_desc. cbn [columns rows mret result_ret].
  rewrite decide_False.
  2:{ intros [H|H]%elem_of_app; [by apply (icon_name_fresh df)|].
      apply list_elem_of_singleton in H. discriminate. }
  f_equal. f_equal; [by rewrite <- app_assoc|]. f_equal.
  rewrite (map_map (fun r => cell_at r "Maturity Category") maturity_icon).
  rewrite zip_with_map_r, !map_map. apply map_ext. intros k.
  unfold facility_row. cbn zeta.
  unfold group_row. by rewrite cell_at_insert_eq.
Qed.

End TableRows.





Lemma elem_of_facility_group_keys (df : DataFrame) (m : string) (k : list cell) :
  k ∈ facility_group_keys df m ->
  exists r, r ∈ rows df /\ isna (cell_at r m) = false
    /\ key_complete (facility_key df m r) = true /\ k = facility_key df m r.
Proof.
  unfold facility_group_keys, distinct_keys.
  intros (r & <- & Hr)%elem_of_distinct_by%list_elem_of_In%in_map_iff.
  apply filter_In in Hr as [Hr [H1%negb_true_iff H2]%andb_true_iff].
  exists r. by rewrite list_elem_of_In.
Qed.

Lemma maturity_label_tier (x : cell) (t : string) :
  maturity_label x = Some t -> t ∈ TIERS.
Proof.
  unfold maturity_label, TIERS.
  repeat (case_match; [intros [= <-]; rewrite !elem_of_cons; tauto|]). done.
Qed.


Section GroupMean.
Variable sum : list float -> float.

Lemma b64_number (q : Q) : is_nan (b64 q) = false.
Proof. unfold b64. by repeat case_match. Qed.

(** The mean passes over the missing cells. *)
Lemma mean_dropna (cs : list cell) :
  mean sum (omap to_float cs) = mean sum (omap to_float (dropna cs)).
Proof.
  unfold mean.
  assert (List.filter (fun x => negb (is_nan x)) (omap to_float cs)
          = List.filter (fun x => negb (is_nan x)) (omap to_float (dropna cs))) as ->; [|done].
  unfold dropna. induction cs as [|c cs IH]; [done|].
  destruct c; cbn [omap list_omap to_float List.filter isna negb is_nan];
    rewrite ?b64_number; cbn [negb]; by rewrite IH.
Qed.

(** The mean of cells that hold integers, missing cells apart. *)
Lemma mean_cells_integers (cs : list cell) (zs : list Z) :
  exact_on_integers sum ->
  holds_integers (dropna cs) zs -> zs <> [] ->
  (foldr Z.add 0%Z (map Z.abs zs) < 2 ^ 53)%Z ->
  mean sum (omap to_float cs)
  = b64 (inject_Z (foldr Z.add 0%Z zs) / inject_Z (Z.of_nat (length zs)))%Q.
Proof.
  intros Hsum Hzs Hne Hb. rewrite mean_dropna.
  apply mean_integers; [done | by apply to_float_integers | | done].
  pose proof (to_float_integers _ _ Hzs Hb) as H%Forall2_length.
  intros E. rewrite E in H. by destruct zs.
Qed.

End GroupMean.



(** ** The scope filter *)

Section ScopeFilter.

Lemma filter_true {A} (f : A -> bool) (l : list A) :
  (forall x, f x = true) -> List.filter f l = l.
Proof.
  intros H. induction l as [|a l IH]; cbn [List.filter]; [done|]. by rewrite H, IH.
Qed.

Lemma filter_idem {A} (f : A -> bool) (l : list A) :
  List.filter f (List.filter f l) = List.filter f l.
Proof.
  rewrite filter_filter_and. apply filter_ext. intros x. by destruct (f x).
Qed.

Lemma filter_eq_absent (df : DataFrame) (c v : string) :
  c ∉ columns df -> filter_eq df c v = Raise (KeyError c).
Proof. intros H. unfold filter_eq. by rewrite decide_False. Qed.

Lemma filter_step (d : DataFrame) (b : bool) (c v : string) :
  (b = true -> c ∈ columns d) ->
  (if b then filter_eq d c v else Ok d)
  = Ok {| columns := columns d;
          rows := List.filter (fun r => negb b || cell_eqb (cell_at r c) (Str v)) (rows d) |}.
Proof.
  intros H. destruct b; cbn [negb orb].
  - unfold filter_eq. by rewrite decide_True by auto.
  - rewrite filter_true by done. by destruct d.
Qed.

Lemma filter_data_rows (df : DataFrame) (county subcounty facility : string) :
  county = "All" \/ COUNTY_COL ∈ columns df ->
  facility = "All" \/ FACILITY_COL ∈ columns df ->
  filter_data df county subcounty facility
  = Ok {| columns := columns df;
          rows := List.filter (in_scope df county subcounty facility) (rows df) |}.
Proof.
  intros Hc Hf. unfold filter_data.
  rewrite (filter_step df), bind_Ok; cbn [columns rows].
  2:{ intros Hb. destruct Hc as [->|?]; [done|done]. }
  rewrite (filter_step {| columns := columns df; rows := _ |}), bind_Ok; cbn [columns rows].
  2:{ by intros [?%bool_decide_eq_true _]%andb_true_iff. }
  rewrite (filter_step {| columns := columns df; rows := _ |}); cbn [columns rows].
  2:{ intros Hb. destruct Hf as [->|?]; [done|done]. }
  f_equal. f_equal. rewrite !filter_filter_and. apply filter_ext. intros r.
  unfold in_scope, selected.
  destruct (String.eqb county "All"), (String.eqb subcounty "All"),
    (String.eqb facility "All"), (bool_decide (SUBCOUNTY_COL ∈ columns df)),
    (cell_eqb (cell_at r COUNTY_COL) (Str county)),
    (cell_eqb (cell_at r SUBCOUNTY_COL) (Str subcounty)),
    (cell_eqb (cell_at r FACILITY_COL) (Str facility)); reflexivity.
Qed.

Lemma filter_data_Ok_inv (df d : DataFrame) (county subcounty facility : string) :
  filter_data df county subcounty facility = Ok d ->
  (county = "All" \/ COUNTY_COL ∈ columns df)
  /\ (facility = "All" \/ FACILITY_COL ∈ columns df).
Proof.
  unfold filter_data. intros H.
  assert (county = "All" \/ COUNTY_COL ∈ columns df) as Hc.
  { destruct (String.eqb_spec county "All") as [|Hne]; [by left|]. right.
    destruct (decide (COUNTY_COL ∈ columns df)) as [?|Hn]; [done|].
    cbn [negb] in H. rewrite (filter_eq_absent df COUNTY_COL), bind_Raise in H by done.
    discriminate H. }
  split; [done|].
  rewrite (filter_step df), bind_Ok in H; cbn [columns rows] in H.
  2:{ intros Hb. destruct Hc as [->|?]; [done|done]. }
  rewrite (filter_step {| columns := columns df; rows := _ |}), bind_Ok in H;
    cbn [columns rows] in H.
  2:{ by intros [?%bool_decide_eq_true _]%andb_true_iff. }
  destruct (String.eqb_spec facility "All") as [|Hne]; [by left|]. right.
  destruct (decide (FACILITY_COL ∈ columns df)) as [?|Hn]; [done|].
  cbn [negb] in H. rewrite filter_eq_absent in H by done. discriminate H.
Qed.

End ScopeFilter.

(** X1. On a frame that has the columns of the selections made,
    [filter_data] keeps the columns and, in their order, exactly the rows
    that meet the three selections together; a subcounty selection counts
    only when the frame has the subcounty column. *)
Theorem filter_data_and (df : DataFrame) (county subcounty facility : string) :
  county = "All" \/ COUNTY_COL ∈ columns df ->
  facility = "All" \/ FACILITY_COL ∈ columns df ->
  exists d, filter_data df county subcounty facility = Ok d
    /\ columns d = columns df
    /\ rows d = List.filter (in_scope df county subcounty facility) (rows df)
    /\ (forall r, r ∈ rows d <->
          r ∈ rows df
          /\ (county = "All" \/ cell_at r COUNTY_COL = Str county)
          /\ (subcounty = "All" \/ SUBCOUNTY_COL ∉ columns df
              \/ cell_at r SUBCOUNTY_COL = Str subcounty)
          /\ (facility = "All" \/ cell_at r FACILITY_COL = Str facility)).
Proof.
  intros Hc Hf. eexists. split; [by apply filter_data_rows|]. cbn [columns rows].
  split; [done|]. split; [done|]. intros r.
  rewrite elem_of_filter_bool. unfold in_scope, selected.
  assert (forall c v, cell_eqb (cell_at r c) (Str v) = true <-> cell_at r c = Str v) as He.
  { intros c v. destruct (cell_at r c); cbn [cell_eqb cell_num]; try done.
    rewrite String.eqb_eq. split; [by intros -> | by intros [= ->]]. }
  rewrite !andb_true_iff, !orb_true_iff, negb_true_iff, bool_decide_eq_false,
    !String.eqb_eq, !He. tauto.
Qed.

Lemma filter_data_and_witness :
  exists d, filter_data scope_frame "Embu" "All" "F3" = Ok d
    /\ columns d = columns scope_frame
    /\ rows d = List.filter (in_scope scope_frame "Embu" "All" "F3") (rows scope_frame)
    /\ (forall r, r ∈ rows d <->
          r ∈ rows scope_frame
          /\ ("Embu" = "All" \/ cell_at r COUNTY_COL = Str "Embu")
          /\ ("All" = "All" \/ SUBCOUNTY_COL ∉ columns scope_frame
              \/ cell_at r SUBCOUNTY_COL = Str "All")
          /\ ("F3" = "All" \/ cell_at r FACILITY_COL = Str "F3")).
Proof.
  apply (filter_data_and scope_frame "Embu" "All" "F3").
  - right. decide_closed.
  - right. decide_closed.
Defined.

(** X2. Filtering the result of [filter_data] again by the same selections
    changes nothing. *)
Theorem filter_data_idempotent (df d : DataFrame) (county subcounty facility : string) :
  filter_data df county subcounty facility = Ok d ->
  filter_data d county subcounty facility = Ok d.
Proof.
  intros H. destruct (filter_data_Ok_inv _ _ _ _ _ H) as [Hc Hf].
  rewrite filter_data_rows in H by done. injection H as <-.
  rewrite filter_data_rows by done. cbn [columns rows]. f_equal. f_equal.
  apply filter_idem.
Qed.

Lemma filter_data_idempotent_witness :
  filter_data {| columns := columns scope_frame;
                 rows := List.filter (in_scope scope_frame "Embu" "All" "All")
                           (rows scope_frame) |} "Embu" "All" "All"
  = Ok {| columns := columns scope_frame;
          rows := List.filter (in_scope scope_frame "Embu" "All" "All")
                    (rows scope_frame) |}.
Proof.
  apply (filter_data_idempotent scope_frame). reflexivity.
Defined.

(** X3. [filter_data] raises only for a county or a facility selected on a
    frame without that column, and then [KeyError] of the column; a
    subcounty selected on a frame without the subcounty column is passed
    over. *)
Theorem filter_data_errors (df : DataFrame) (county subcounty facility : string) (e : exn) :
  filter_data df county subcounty facility = Raise e ->
  (county <> "All" /\ (COUNTY_COL ∉ columns df) /\ e = KeyError COUNTY_COL)
  \/ (facility <> "All" /\ (FACILITY_COL ∉ columns df) /\ e = KeyError FACILITY_COL
      /\ (county = "All" \/ COUNTY_COL ∈ columns df)).
Proof.
  intros H.
  destruct (String.eqb_spec county "All") as [Hc|Hc].
  - destruct (String.eqb_spec facility "All") as [Hf|Hf].
    + rewrite filter_data_rows in H by auto. discriminate.
    + destruct (decide (FACILITY_COL ∈ columns df)) as [Hin|Hin].
      * rewrite filter_data_rows in H by auto. discriminate.
      * right. split; [done|]. split; [done|]. split; [|by left].
        unfold filter_data in H. rewrite (filter_step df), bind_Ok in H by (by subst).
        rewrite (filter_step {| columns := columns df; rows := _ |}), bind_Ok in H
          by (by intros [?%bool_decide_eq_true _]%andb_true_iff).
        apply String.eqb_neq in Hf. rewrite Hf in H. cbn [negb] in H.
        rewrite filter_eq_absent in H by done. by injection H as <-.
  - destruct (decide (COUNTY_COL ∈ columns df)) as [Hcin|Hcin].
    + destruct (String.eqb_spec facility "All") as [Hf|Hf].
      * rewrite filter_data_rows in H by auto. discriminate.
      * destruct (decide (FACILITY_COL ∈ columns df)) as [Hin|Hin].
        -- rewrite filter_data_rows in H by auto. discriminate.
        -- right. split; [done|]. split; [done|]. split; [|by right].
           unfold filter_data in H. rewrite (filter_step df), bind_Ok in H by done.
           rewrite (filter_step {| columns := columns df; rows := _ |}), bind_Ok in H
             by (by intros [?%bool_decide_eq_true _]%andb_true_iff).
           apply String.eqb_neq in Hf. rewrite Hf in H. cbn [negb] in H.
           rewrite filter_eq_absent in H by done. by injection H as <-.
    + left. split; [done|]. split; [done|].
      unfold filter_data in H. apply String.eqb_neq in Hc. rewrite Hc in H.
      cbn [negb] in H. rewrite (filter_eq_absent df COUNTY_COL), bind_Raise in H by done.
      by injection H as <-.
Qed.

Lemma filter_data_errors_witness :
  ("Embu" <> "All" /\ (COUNTY_COL ∉ columns {| columns := [FACILITY_COL]; rows := [] |})
   /\ KeyError COUNTY_COL = KeyError COUNTY_COL)
  \/ ("All" <> "All" /\ (FACILITY_COL ∉ columns {| columns := [FACILITY_COL]; rows := [] |})
      /\ KeyError COUNTY_COL = KeyError FACILITY_COL
      /\ ("Embu" = "All" \/ COUNTY_COL ∈ columns {| columns := [FACILITY_COL]; rows := [] |})).
Proof.
  apply (filter_data_errors {| columns := [FACILITY_COL]; rows := [] |} "Embu" "Matuga" "All").
  reflexivity.
Defined.

(** X4. Two scopes applied one after the other give the same frame in
    either order: the rows that meet both. *)
Theorem filter_data_commute (df : DataFrame) (c1 s1 f1 c2 s2 f2 : string) :
  COUNTY_COL ∈ columns df -> FACILITY_COL ∈ columns df ->
  (filter_data df c1 s1 f1 ≫= fun d => filter_data d c2 s2 f2)
  = (filter_data df c2 s2 f2 ≫= fun d => filter_data d c1 s1 f1)
  /\ (filter_data df c1 s1 f1 ≫= fun d => filter_data d c2 s2 f2)
     = Ok {| columns := columns df;
             rows := List.filter (fun r => in_scope df c1 s1 f1 r && in_scope df c2 s2 f2 r)
                       (rows df) |}.
Proof.
  intros Hc Hf.
  assert (forall a b c a' b' c',
            (filter_data df a b c ≫= fun d => filter_data d a' b' c')
            = Ok {| columns := columns df;
                    rows := List.filter (fun r => in_scope df a b c r && in_scope df a' b' c' r)
                              (rows df) |}) as H.
  { intros. rewrite filter_data_rows, bind_Ok by auto.
    rewrite filter_data_rows by auto. cbn [columns rows]. by rewrite filter_filter_and. }
  split; [|apply H]. rewrite !H. f_equal. f_equal. apply filter_ext.
  intros r. apply andb_comm.
Qed.

Lemma filter_data_commute_witness :
  (filter_data scope_frame "Embu" "All" "All" ≫= fun d => filter_data d "All" "All" "F3")
  = (filter_data scope_frame "All" "All" "F3" ≫= fun d => filter_data d "Embu" "All" "All")
  /\ (filter_data scope_frame "Embu" "All" "All" ≫= fun d => filter_data d "All" "All" "F3")
     = Ok {| columns := columns scope_frame;
             rows := List.filter (fun r => in_scope scope_frame "Embu" "All" "All" r
                                           && in_scope scope_frame "All" "All" "F3" r)
                       (rows scope_frame) |}.
Proof.
  apply (filter_data_commute scope_frame); decide_closed.
Defined.

(** ** The metadata *)

(** X5. The table [meta] has one row for each column of the data that is
    not an administrative column, in the order of the columns, and none for
    an administrative column, whatever the dictionary holds. *)
Theorem load_data_retained_columns (cols : list string) (dd : list DictionaryEntry)
    (metas : list ColumnMeta) :
  load_data cols dd = Ok metas ->
  map column metas = List.filter (fun c => negb (bool_decide (c ∈ ADMIN_COLS))) cols
  /\ (forall m, m ∈ metas -> column m ∉ ADMIN_COLS)
  /\ (forall c, c ∈ cols -> c ∉ ADMIN_COLS -> exists m, m ∈ metas /\ column m = c).
Proof.
  intros (dd_map & _ & [= <-])%result_bind_Ok. split; [|split].
  - unfold build_meta. rewrite map_map. apply map_id.
  - by intros m (c & _ & Hc & ->)%elem_of_build_meta.
  - intros c Hc Hna. exists (column_meta dd_map c). split; [|done].
    apply elem_of_build_meta. by exists c.
Qed.

Lemma load_data_retained_columns_witness :
  map column [column_meta {[ Some "cc_fridge_temp" :=
                   {| info_field_type := Some "yesno";
                      info_theme := Some "Logistics & Cold Chain" |} ]} fridge_col]
  = List.filter (fun c => negb (bool_decide (c ∈ ADMIN_COLS))) [COUNTY_COL; fridge_col].
Proof.
  apply (load_data_retained_columns [COUNTY_COL; fridge_col] (fridge_dict "cc_fridge_temp")).
  reflexivity.
Defined.

(** X6. Every item of the dictionary map comes from a row of the
    dictionary: its key is the cleaned label of the row, its field type the
    one of the row, its theme the one inferred from the variable name of the
    row; and no item has both its field type and its theme missing. *)
Theorem build_dd_map_items (dd : list DictionaryEntry) (m : gmap (option string) DDInfo)
    (label : option string) (info : DDInfo) :
  build_dd_map dd = Ok m ->
  m !! label = Some info ->
  (is_Some (info_field_type info) \/ is_Some (info_theme info))
  /\ exists e, e ∈ dd
       /\ label = clean_label (dd_field_label e)
       /\ info_field_type info = dd_field_type e
       /\ info_theme info = infer_theme (dd_variable_name e).
Proof.
  unfold build_dd_map, to_dict_index. case_decide as Hnd; [|done]. intros [= <-] Hl.
  apply elem_of_list_to_map in Hl; [|done].
  apply elem_of_dropna_all in Hl as [Hin Hsome]. split; [done|].
  unfold dd_indexed in Hin. apply list_elem_of_In, in_map_iff in Hin as (e & [= <- <-] & He).
  exists e. by rewrite list_elem_of_In.
Qed.

Lemma build_dd_map_items_witness :
  (is_Some (Some "yesno") \/ is_Some (Some "Logistics & Cold Chain"))
  /\ exists e, e ∈ fridge_dict "cc_fridge_temp"
       /\ Some "cc_fridge_temp" = clean_label (dd_field_label e)
       /\ Some "yesno" = dd_field_type e
       /\ Some "Logistics & Cold Chain" = infer_theme (dd_variable_name e).
Proof.
  apply (build_dd_map_items (fridge_dict "cc_fridge_temp")
           {[ Some "cc_fridge_temp" :=
                {| info_field_type := Some "yesno";
                   info_theme := Some "Logistics & Cold Chain" |} ]}
           (Some "cc_fridge_temp")
           {| info_field_type := Some "yesno";
              info_theme := Some "Logistics & Cold Chain" |}).
  - reflexivity.
  - reflexivity.
Defined.

(** X7. A theme that [infer_theme] returns is one of the seven themes. *)
Theorem infer_theme_range (x : option string) (t : string) :
  infer_theme x = Some t -> t ∈ THEMES.
Proof.
  destruct x as [v|]; [|done]. unfold infer_theme, THEMES.
  repeat (case_match; [intros [= <-]; rewrite !elem_of_cons; tauto|]). done.
Qed.

Lemma infer_theme_range_witness : "Summary" ∈ THEMES.
Proof. apply (infer_theme_range (Some "overall_score_pct")). reflexivity. Defined.

(** X8. Whatever the label, its cleaned form has no whitespace at either
    end, and no whitespace inside but single spaces. *)
Theorem clean_label_whitespace (s t : string) :
  clean_label (Some s) = Some t ->
  single_spaced t = true /\ starts_space t = false /\ ends_space t = false.
Proof.
  intros [= <-]. unfold PyStr.strip, PyStr.sub_spaces. split; [|split].
  - apply single_spaced_rstrip, single_spaced_lstrip, single_spaced_sub_spaces.
  - apply starts_space_rstrip, starts_space_lstrip.
  - apply ends_space_rstrip.
Qed.

Lemma clean_label_whitespace_witness :
  single_spaced "< >" = true /\ starts_space "< >" = false /\ ends_space "< >" = false.
Proof. apply (clean_label_whitespace broken_tag). reflexivity. Defined.

(** ** The tiers and the responses *)

(** X9. [maturity_label] gives a tier to the numbers 1, 2 and 3 alone,
    integer or float, and none to another number, to a string (be it "1")
    or to a missing cell. *)
Theorem maturity_label_numeric (x : cell) (t : string) :
  maturity_label x = Some t <->
  exists q, cell_num x = Some q
    /\ (((q == 1)%Q /\ t = "Bronze") \/ ((q == 2)%Q /\ t = "Silver")
        \/ ((q == 3)%Q /\ t = "Gold")).
Proof.
  unfold maturity_label.
  assert (forall z, cell_eqb x (Int z) = true <->
                    exists q, cell_num x = Some q /\ (q == inject_Z z)%Q) as He.
  { intros z. destruct x; cbn [cell_eqb cell_num]; rewrite ?Qeq_bool_iff.
    - split; [done | by intros (q & ? & _)].
    - split; [eauto | by intros (q & [= <-] & ?)].
    - split; [eauto | by intros (q0 & [= <-] & ?)].
    - split; [done | by intros (q & ? & _)].
    - split; [done | by intros (q & ? & _)]. }
  split.
  - destruct (cell_eqb x (Int 1)) eqn:E1.
    { intros [= <-]. apply He in E1 as (q & Hq & ?). exists q. auto. }
    destruct (cell_eqb x (Int 2)) eqn:E2.
    { intros [= <-]. apply He in E2 as (q & Hq & ?). exists q. auto. }
    destruct (cell_eqb x (Int 3)) eqn:E3; [|done].
    intros [= <-]. apply He in E3 as (q & Hq & ?). exists q. auto.
  - intros (q & Hq & H).
    assert (forall z, (q == inject_Z z)%Q -> cell_eqb x (Int z) = true) as Hz
      by (intros z ?; apply He; eauto).
    assert (forall z z', z <> z' -> (q == inject_Z z)%Q -> cell_eqb x (Int z') = false) as Hn.
    { intros z z' Hne Hqz. apply not_true_is_false. intros (q' & Hq' & Hz')%He.
      rewrite Hq in Hq'. injection Hq' as <-. rewrite Hqz in Hz'.
      apply Hne. unfold Qeq, inject_Z in Hz'. cbn in Hz'. lia. }
    destruct H as [[H ->]|[[H ->]|[H ->]]].
    + by rewrite (Hz 1%Z H).
    + by rewrite (Hn 2%Z 1%Z ltac:(done) H), (Hz 2%Z H).
    + by rewrite (Hn 3%Z 1%Z ltac:(done) H), (Hn 3%Z 2%Z ltac:(done) H), (Hz 3%Z H).
Qed.

(** X10. [normalize] changes nothing in a value it has returned: normalizing
    twice is normalizing once. *)
Theorem normalize_idempotent (float_repr : Q -> string) (resp v : cell) :
  normalize float_repr resp = Some v -> normalize float_repr v = Some v.
Proof.
  intros H. pose proof H as H'. unfold normalize in H.
  destruct (isna resp) eqn:Hna; [done|].
  repeat case_match; try discriminate H; injection H as <-; try reflexivity. exact H'.
Qed.

Lemma normalize_idempotent_witness :
  normalize (fun _ => "1.0") (Str "Yes") = Some (Str "Yes").
Proof. apply (normalize_idempotent (fun _ => "1.0") (Str " y ")). reflexivity. Defined.

(** ** The pages *)

Section Counts.

Lemma cell_eqb_Str (v : cell) (t : string) : cell_eqb v (Str t) = true -> v = Str t.
Proof. destruct v; cbn [cell_eqb cell_num]; try done. by intros ->%String.eqb_eq. Qed.

Lemma filter_none {A} (f : A -> bool) (l : list A) :
  (forall x, x ∈ l -> f x = false) -> List.filter f l = [].
Proof.
  induction l as [|a l IH]; intros H; cbn [List.filter]; [done|].
  rewrite (H a) by apply list_elem_of_here. apply IH. intros x Hx.
  by apply H, list_elem_of_further.
Qed.

Lemma reindex_value_counts (s : list (option cell)) (t : string) :
  reindex_count (value_counts s) t
  = length (List.filter (cell_eqb (Str t)) (omap id s)).
Proof.
  unfold reindex_count, value_counts. set (vals := omap id s).
  destruct (List.find _ _) as [e|] eqn:Hf.
  - apply find_some in Hf as [Hin He].
    apply list_elem_of_In, elem_of_sort_by, list_elem_of_In, in_map_iff in Hin
      as (v & <- & _).
    cbn [fst snd] in *. by rewrite (cell_eqb_Str _ _ He).
  - rewrite filter_none; [done|]. intros x Hx.
    destruct (cell_eqb (Str t) x) eqn:E; [exfalso|done].
    apply cell_eqb_sym, cell_eqb_Str in E. subst x.
    destruct (distinct_by_covers cell_eqb vals (Str t) cell_eqb_trans) as (y & Hy & Hyt);
      [apply String.eqb_refl | done |].
    pose proof (find_none _ _ Hf (y, length (List.filter (cell_eqb y) vals))) as Hn.
    cbn [fst] in Hn. rewrite Hyt in Hn. discriminate Hn.
    apply list_elem_of_In, elem_of_sort_by, list_elem_of_In, in_map_iff.
    exists y. by rewrite <- list_elem_of_In.
Qed.

Lemma count_tier (cs : list cell) (t : string) :
  length (List.filter (cell_eqb (Str t))
            (omap id (map (fmap Str) (map maturity_label (dropna cs)))))
  = length (List.filter (fun c => bool_decide (maturity_label c = Some t)) cs).
Proof.
  induction cs as [|c cs IH]; [done|].
  unfold dropna in *. cbn [List.filter].
  destruct (isna c) eqn:Hna.
  - cbn [negb]. by destruct c.
  - cbn [negb map omap list_omap]. destruct (maturity_label c) as [t'|] eqn:Hc.
    + cbn [fmap option_fmap option_map id List.filter cell_eqb].
      destruct (String.eqb_spec t t') as [->|Hne].
      * rewrite bool_decide_eq_true_2 by done. cbn [length]. by rewrite <- IH.
      * rewrite bool_decide_eq_false_2 by (by intros [= ->]). apply IH.
    + cbn [fmap option_fmap option_map id]. rewrite bool_decide_eq_false_2 by done.
      apply IH.
Qed.

End Counts.

(** X11. The counts of [summary_page] are, for Bronze, Silver and Gold in
    this order, the numbers of rows of the frame whose overall maturity is
    1, 2 and 3; a row of another or of no maturity is in no count. *)
Theorem maturity_counts_by_tier (df : DataFrame) :
  OVERALL_MATURITY_COL ∈ columns df ->
  maturity_counts df
  = Ok (map (fun t => (t, length (List.filter
                                    (fun r => bool_decide
                                       (maturity_label (cell_at r OVERALL_MATURITY_COL)
                                        = Some t)) (rows df))))
            TIERS).
Proof.
  intros Hin. unfold maturity_counts. rewrite getitem_present, bind_Ok by done.
  cbn [mret result_ret]. f_equal. apply map_ext. intros t. f_equal.
  rewrite reindex_value_counts, count_tier.
  rewrite filter_map_comm. apply length_map.
Qed.

Lemma maturity_counts_by_tier_witness :
  maturity_counts sample_frame = Ok [("Bronze", 1); ("Silver", 1); ("Gold", 1)].
Proof.
  rewrite (maturity_counts_by_tier sample_frame); [reflexivity | decide_closed].
Defined.

Section Buckets.

(** The tier of a row of the table is the tier of the rows of its group. *)
Lemma facility_row_tier (df : DataFrame) (s m : string) (k : list cell) (mn : cell) :
  s ∉ facility_keys df ->
  k ∈ facility_group_keys df m ->
  exists t, t ∈ TIERS /\ cell_at (facility_row df s k mn) "Maturity Category" = Str t.
Proof.
  intros Hs Hk.
  pose proof Hk as (r & _ & _ & Hc & ->)%elem_of_facility_group_keys.
  pose proof (group_key_facility_row df s (facility_key df m r) mn Hs
                (length_facility_key df m r)) as Hg.
  set (out := facility_row df s (facility_key df m r) mn) in *.
  unfold group_key, facility_keys, facility_key in Hg. rewrite map_app in Hg.
  cbn [map] in Hg. apply app_inj_2 in Hg as [_ [= Hg]]; [|done].
  unfold key_complete, facility_key in Hc. rewrite forallb_app in Hc.
  apply andb_true_iff in Hc as [_ Hc]. cbn [forallb] in Hc.
  rewrite Hg. revert Hc.
  destruct (maturity_label (cell_at r m)) as [t|] eqn:Ht; [|done].
  intros _. exists t. split; [by apply (maturity_label_tier _ _ Ht) | done].
Qed.

Lemma length_by_tier (l : list (gmap string cell)) :
  (forall r, r ∈ l -> exists t, t ∈ TIERS /\ cell_at r "Maturity Category" = Str t) ->
  length l
  = (length (List.filter (fun r => cell_eqb (cell_at r "Maturity Category") (Str "Bronze")) l)
     + length (List.filter (fun r => cell_eqb (cell_at r "Maturity Category") (Str "Silver")) l)
     + length (List.filter (fun r => cell_eqb (cell_at r "Maturity Category") (Str "Gold")) l))%nat.
Proof.
  induction l as [|r l IH]; intros H; [done|]. cbn [List.filter length].
  destruct (H r) as (t & Ht & ->); [apply list_elem_of_here|].
  rewrite IH by (intros r' Hr'; by apply H, list_elem_of_further).
  unfold TIERS in Ht. rewrite !elem_of_cons, elem_of_nil in Ht.
  destruct Ht as [->|[->|[->|[]]]]; cbn; lia.
Qed.

End Buckets.

(** X12. The three facility lists of a page, Bronze, Silver and Gold, are
    the rows of the facility table of that tier, in the order of the table;
    every row of the table has one of the three tiers, so that the lists
    together hold each row of the table once. *)
Theorem facility_buckets_partition (group_sum : list float -> float)
    (df : DataFrame) (theme s m : string) :
  dict_getitem THEME_SCORE_COLS theme = Ok s ->
  dict_getitem THEME_MATURITY_COLS theme = Ok m ->
  s ∈ columns df -> m ∈ columns df ->
  (forall r, r ∈ rows df -> is_str (cell_at r s) = false) ->
  exists fac,
    facility_maturity_table group_sum df theme = Ok fac
    /\ facility_buckets group_sum df theme
       = Ok (map (fun cat =>
                    (cat, {| columns := columns fac;
                             rows := List.filter
                                       (fun r => cell_eqb (cell_at r "Maturity Category")
                                                   (Str cat)) (rows fac) |}))
                 TIERS)
    /\ (forall r, r ∈ rows fac ->
          exists t, t ∈ TIERS /\ cell_at r "Maturity Category" = Str t)
    /\ length (rows fac)
       = (length (List.filter (fun r => cell_eqb (cell_at r "Maturity Category")
                                          (Str "Bronze")) (rows fac))
          + length (List.filter (fun r => cell_eqb (cell_at r "Maturity Category")
                                            (Str "Silver")) (rows fac))
          + length (List.filter (fun r => cell_eqb (cell_at r "Maturity Category")
                                            (Str "Gold")) (rows fac)))%nat.
Proof.
  intros Hs Hm Hsi Hmi Hnum.
  pose proof (theme_col_fresh _ _ _ (or_introl eq_refl) Hs) as Hfs.
  pose proof (facility_keys_fresh df s Hfs) as Hsk.
  pose proof (facility_maturity_table_rows group_sum df theme s m Hs Hm Hsi Hmi Hnum)
    as Hfac.
  eexists. split; [exact Hfac|].
  assert (forall r, r ∈ sort_by (fun r r' => desc_le (cell_at r "Score (%)")
                                              (cell_at r' "Score (%)"))
                        (map (fun k => facility_row df s k
                                         (group_mean group_sum
                                            (map (fun r => cell_at r s)
                                                 (facility_members df m k))))
                             (facility_group_keys df m)) ->
            exists t, t ∈ TIERS /\ cell_at r "Maturity Category" = Str t) as Htier.
  { intros r (k & <- & Hk%list_elem_of_In)%elem_of_sort_by%list_elem_of_In%in_map_iff.
    by apply (facility_row_tier df s m). }
  cbn [columns rows]. split; [|split; [exact Htier | by apply length_by_tier]].
  unfold facility_buckets. rewrite Hfac, bind_Ok.
  assert ("Maturity Category" ∈ (facility_keys df ++ ["Score (%)"; "Maturity"])%list)
    as HMC.
  { unfold facility_keys. rewrite !elem_of_app, !list_elem_of_singleton. tauto. }
  unfold TIERS. cbn [mapM map]. unfold filter_eq. cbn [columns rows].
  rewrite !decide_True by done. reflexivity.
Qed.

Lemma facility_buckets_partition_witness :
  exists fac,
    facility_maturity_table fsum sample_frame "Summary" = Ok fac
    /\ length (rows fac)
       = (length (List.filter (fun r => cell_eqb (cell_at r "Maturity Category")
                                          (Str "Bronze")) (rows fac))
          + length (List.filter (fun r => cell_eqb (cell_at r "Maturity Category")
                                            (Str "Silver")) (rows fac))
          + length (List.filter (fun r => cell_eqb (cell_at r "Maturity Category")
                                            (Str "Gold")) (rows fac)))%nat.
Proof.
  destruct (facility_buckets_partition fsum sample_frame "Summary"
              OVERALL_SCORE_COL OVERALL_MATURITY_COL) as (fac & H1 & _ & _ & H2).
  - reflexivity.
  - reflexivity.
  - decide_closed.
  - decide_closed.
  - intros r Hr. unfold sample_frame in Hr. cbn [rows] in Hr.
    rewrite !elem_of_cons, elem_of_nil in Hr.
    destruct Hr as [->|[->|[->|[]]]]; reflexivity.
  - exists fac. by split.
Defined.

(** X13. The theme that [thematic_page] looks up for a tab is the theme
    that [infer_theme] gives to the variable names of the prefix of that
    tab: the questions of a prefix come under their tab, also on the tab
    "Logistics and Cold Chain", whose theme is spelt "Logistics & Cold
    Chain". *)
Theorem tab_theme_of_prefix (tab p v : string) :
  (tab, p) ∈ PREFIX_OF_TAB ->
  PyStr.startswith p v = true ->
  infer_theme (Some v) = Some (mapped_theme tab).
Proof.
  intros Hin Hp. apply (infer_theme_prefix v p); [|done].
  unfold PREFIX_OF_TAB in Hin. rewrite !elem_of_cons, elem_of_nil in Hin.
  destruct Hin as [H|[H|[H|[H|[H|[H|[]]]]]]]; injection H as -> ->;
    unfold PREFIX_THEMES; rewrite !elem_of_cons; cbn; tauto.
Qed.

Lemma tab_theme_of_prefix_witness :
  infer_theme (Some "cc_fridge_temp") = Some (mapped_theme "Logistics and Cold Chain").
Proof.
  apply (tab_theme_of_prefix "Logistics and Cold Chain" "cc_" "cc_fridge_temp").
  - decide_closed.
  - reflexivity.
Defined.

(** X14. On the table [meta] of [load_data], a column that a page charts is
    a column of the frame that is not administrative, and no page
    tabulates it as open-ended: no column is shown both ways. *)
Theorem page_columns_exclusive (cols : list string) (dd : list DictionaryEntry)
    (metas : list ColumnMeta) (df : DataFrame) (tab tab' c : string) :
  load_data cols dd = Ok metas ->
  c ∈ page_columns is_categorical df metas tab ->
  c ∈ columns df /\ c ∈ cols /\ (c ∉ ADMIN_COLS)
  /\ (c ∉ page_columns is_open_ended df metas tab').
Proof.
  intros (dd_map & _ & [= <-])%result_bind_Ok.
  assert (forall kind t x, x ∈ page_columns kind df (build_meta dd_map cols) t ->
            x ∈ columns df /\ x ∈ cols /\ (x ∉ ADMIN_COLS)
            /\ kind (column_meta dd_map x) = true) as H.
  { intros kind t x (m & <- & Hm)%list_elem_of_In%in_map_iff.
    apply filter_In in Hm as [Hm Hdf%bool_decide_eq_true].
    apply filter_In in Hm as [Hm Hk]. apply filter_In in Hm as [Hm _].
    apply list_elem_of_In, elem_of_build_meta in Hm as (col & Hc & Hna & ->). done. }
  intros Hc. destruct (H _ _ _ Hc) as (H1 & H2 & H3 & H4).
  split; [done|]. split; [done|]. split; [done|].
  intros Ho. destruct (H _ _ _ Ho) as (_ & _ & _ & H5).
  pose proof (opt_in_disjoint (field_type (column_meta dd_map c))) as Hd.
  cbn in H4, H5. cbn in Hd. by rewrite H4, H5 in Hd.
Qed.

Lemma page_columns_exclusive_witness :
  fridge_col ∈ columns {| columns := [fridge_col]; rows := [] |}
  /\ fridge_col ∈ [COUNTY_COL; fridge_col] /\ (fridge_col ∉ ADMIN_COLS)
  /\ (fridge_col ∉ page_columns is_open_ended {| columns := [fridge_col]; rows := [] |}
        [column_meta {[ Some "cc_fridge_temp" :=
           {| info_field_type := Some "yesno";
              info_theme := Some "Logistics & Cold Chain" |} ]} fridge_col]
        "HRH").
Proof.
  apply (page_columns_exclusive [COUNTY_COL; fridge_col] (fridge_dict "cc_fridge_temp")
           _ _ "Logistics and Cold Chain").
  - reflexivity.
  - decide_closed.
Defined.

Section ChartNotice.
Variable float_repr : Q -> string.

Lemma sort_by_nil {A} (le : A -> A -> bool) (l : list A) : sort_by le l = [] -> l = [].
Proof.
  destruct l as [|x l]; [done|]. intros H.
  assert (x ∈ sort_by le (x :: l)) as Hx by (apply elem_of_sort_by, list_elem_of_here).
  rewrite H in Hx. by apply elem_of_nil in Hx.
Qed.

Lemma value_counts_nil (s : list (option cell)) :
  value_counts s = [] <-> omap id s = [].
Proof.
  unfold value_counts. split.
  - intros H%sort_by_nil. by destruct (omap id s).
  - by intros ->.
Qed.

Lemma filter_all {A} (f : A -> bool) (l : list A) :
  (forall x, x ∈ l -> f x = true) -> List.filter f l = l.
Proof.
  induction l as [|a l IH]; intros H; cbn [List.filter]; [done|].
  rewrite (H a) by apply list_elem_of_here. f_equal. apply IH. intros x Hx.
  by apply H, list_elem_of_further.
Qed.

Lemma normalize_counts_notna (series : list cell) :
  List.filter (fun lc : cell * nat => negb (isna lc.1))
    (value_counts (map (normalize float_repr) series))
  = value_counts (map (normalize float_repr) series).
Proof.
  apply filter_all. intros [l n] [Hl _]%elem_of_value_counts.
  apply list_elem_of_In, in_map_iff in Hl as (r & Hr & _).
  cbn [fst]. by rewrite (normalize_Some_notna float_repr r l Hr).
Qed.

Lemma normalize_all_none (cells : list cell) :
  omap id (map (normalize float_repr) (dropna cells)) = [] <->
  forall c, c ∈ cells -> normalize float_repr c = None.
Proof.
  induction cells as [|c cells IH].
  - split; [by intros _ c ?%elem_of_nil | done].
  - unfold dropna in *. cbn [List.filter]. destruct (isna c) eqn:Hna; cbn [negb].
    + rewrite IH. split.
      * intros H x [->|Hx]%elem_of_cons; [|by apply H].
        unfold normalize. by rewrite Hna.
      * intros H x Hx. by apply H, list_elem_of_further.
    + cbn [map omap list_omap]. destruct (normalize float_repr c) eqn:Hn; cbn [id].
      * split; [done|]. intros H. by rewrite (H c (list_elem_of_here _ _)) in Hn.
      * rewrite IH. split.
        -- by intros H x [->|Hx]%elem_of_cons; [|apply H].
        -- intros H x Hx. by apply H, list_elem_of_further.
Qed.

End ChartNotice.

(** X15. [show_categorical_chart] writes a notice in place of the chart
    exactly when no response of the column counts: each is missing or blank.
    Otherwise the counts it charts have a label for each value of
    [normalize] on a response, and no label twice. *)
Theorem chart_notice_iff_no_response (float_repr : Q -> string) (df : DataFrame)
    (col : string) :
  col ∈ columns df ->
  (show_categorical_chart float_repr df col = Ok None <->
   forall r, r ∈ rows df -> normalize float_repr (cell_at r col) = None)
  /\ (forall counts, show_categorical_chart float_repr df col = Ok (Some counts) ->
        (forall r v, r ∈ rows df -> normalize float_repr (cell_at r col) = Some v ->
           exists l n, (l, n) ∈ counts /\ cell_eqb l v = true)
        /\ ForallOrdPairs (fun a b => cell_eqb a.1 b.1 = false) counts).
Proof.
  intros Hin. unfold show_categorical_chart. rewrite getitem_present by done.
  cbn [fmap result_fmap]. rewrite bind_Ok.
  set (cells := map (fun r => cell_at r col) (rows df)).
  rewrite normalize_counts_notna.
  assert ((forall r, r ∈ rows df -> normalize float_repr (cell_at r col) = None) <->
          (forall c, c ∈ cells -> normalize float_repr c = None)) as Hall.
  { unfold cells. split.
    - intros H c (r & <- & Hr)%list_elem_of_In%in_map_iff. by apply H, list_elem_of_In.
    - intros H r Hr. apply H, list_elem_of_In, in_map_iff. exists r.
      by rewrite <- list_elem_of_In. }
  rewrite Hall, <- normalize_all_none.
  destruct (dropna cells) as [|c cs] eqn:Hd.
  { split; [done|]. intros counts H. discriminate H. }
  destruct (value_counts (map (normalize float_repr) (c :: cs))) as [|e vc] eqn:Hvc.
  { apply value_counts_nil in Hvc. split; [done|]. intros counts H. discriminate H. }
  split.
  - split; [intros H; discriminate H|]. intros H.
    apply value_counts_nil in H. by rewrite Hvc in H.
  - intros counts [= <-]. rewrite <- Hvc. split.
    + intros r v Hr Hv.
      assert (isna (cell_at r col) = false) as Hna
        by (unfold normalize in Hv; by destruct (isna (cell_at r col))).
      assert (v ∈ omap id (map (normalize float_repr) (c :: cs))) as Hvin.
      { apply list_elem_of_omap. exists (Some v). split; [|done].
        apply list_elem_of_In, in_map_iff. exists (cell_at r col). split; [done|].
        rewrite <- Hd. unfold dropna. apply filter_In. rewrite Hna. split; [|done].
        unfold cells. apply in_map_iff. exists r. by rewrite <- list_elem_of_In. }
      destruct (distinct_by_covers cell_eqb
                  (omap id (map (normalize float_repr) (c :: cs))) v cell_eqb_trans)
        as (y & Hy & Hyv); [| exact Hvin |].
      { apply cell_eqb_refl. by apply (normalize_Some_notna float_repr _ _ Hv). }
      exists y, (length (List.filter (cell_eqb y)
                           (omap id (map (normalize float_repr) (c :: cs))))).
      split; [|done]. unfold value_counts.
      apply elem_of_sort_by, list_elem_of_In, in_map_iff. exists y.
      by rewrite <- list_elem_of_In.
    + unfold value_counts. apply ForallOrdPairs_sort_by.
      { intros a b H. destruct (cell_eqb b.1 a.1) eqn:E; [|done].
        by rewrite (cell_eqb_sym _ _ E) in H. }
      apply ForallOrdPairs_map. cbn [fst]. apply distinct_by_pairwise.
Qed.

Lemma chart_notice_iff_no_response_witness :
  show_categorical_chart (fun _ => "1.0")
    {| columns := ["q"]; rows := [ {[ "q" := Str "  " ]}; ∅ ] |} "q" = Ok None.
Proof.
  apply (proj1 (chart_notice_iff_no_response (fun _ => "1.0")
                  {| columns := ["q"]; rows := [ {[ "q" := Str "  " ]}; ∅ ] |} "q"
                  ltac:(decide_closed))).
  intros r Hr. cbn [rows] in Hr. rewrite !elem_of_cons, elem_of_nil in Hr.
  destruct Hr as [->|[->|[]]]; reflexivity.
Defined.


(** ** The scope summary, further *)

Section SummaryRaises.
Variable float_of_str : string -> option float.

Lemma existsb_dropna_eq (f : cell -> bool) (s : list cell) :
  f NaN = false -> existsb f (dropna s) = existsb f s.
Proof.
  intros Hf. unfold dropna. induction s as [|c s IH]; [done|].
  cbn [List.filter existsb]. destruct c; cbn [isna negb existsb]; rewrite ?Hf, IH; done.
Qed.

Lemma astype_float_rejects (s : list cell) (t : string) :
  Str t ∈ s -> float_of_str t = None ->
  astype_float float_of_str s = Raise ValueError.
Proof.
  unfold astype_float. induction s as [|c s IH]; [by intros ?%elem_of_nil|].
  intros [<-|Hin]%elem_of_cons Hf; cbn [mapM].
  - by rewrite Hf.
  - destruct c as [| |q|u|b]; try done; try (rewrite bind_Ok; by rewrite (IH Hin Hf)).
    destruct (float_of_str u); [|done]. rewrite bind_Ok. by rewrite (IH Hin Hf).
Qed.

End SummaryRaises.

(** X16. [render_scope_summary] raises [TypeError] when the score series
    holds a string; when it holds none but the maturity series holds a
    string that [float] rejects, it raises [ValueError]. *)
Theorem scope_summary_raises (float_of_str : string -> option float)
    (array_sum : list float -> float) (score_series mat_series : list cell) :
  (existsb is_str score_series = true ->
     render_scope_summary float_of_str array_sum score_series mat_series = Raise TypeError)
  /\ (existsb is_str score_series = false ->
      forall t, Str t ∈ mat_series -> float_of_str t = None ->
        render_scope_summary float_of_str array_sum score_series mat_series
        = Raise ValueError).
Proof.
  unfold render_scope_summary. split.
  - intros H. rewrite <- (existsb_dropna_eq is_str) in H by done.
    destruct (dropna score_series) as [|c l] eqn:Hd; [done|].
    unfold series_mean. by rewrite H.
  - intros H t Ht Hf. rewrite <- (existsb_dropna_eq is_str) in H by done.
    assert (Str t ∈ dropna mat_series) as Hin.
    { unfold dropna. by apply elem_of_filter_bool. }
    pose proof (astype_float_rejects float_of_str _ t Hin Hf) as Hr.
    assert (exists sc, match dropna score_series with
                       | [] => Ok None
                       | s => Some <$> series_mean array_sum s
                       end = Ok sc) as [sc ->].
    { destruct (dropna score_series) as [|c l] eqn:Hd; [by eexists|].
      unfold series_mean. rewrite H. by eexists. }
    rewrite bind_Ok. destruct (dropna mat_series) as [|c l] eqn:Hd.
    + by apply elem_of_nil in Hin.
    + by rewrite Hr.
Qed.

Lemma scope_summary_raises_witness :
  render_scope_summary (fun _ => None) fsum [Str "high"] [Int 2] = Raise TypeError
  /\ render_scope_summary (fun _ => None) fsum [Float (60 # 1)] [Str "Gold"]
     = Raise ValueError.
Proof.
  split.
  - apply (proj1 (scope_summary_raises (fun _ => None) fsum [Str "high"] [Int 2])).
    reflexivity.
  - apply (proj2 (scope_summary_raises (fun _ => None) fsum [Float (60 # 1)] [Str "Gold"])
             eq_refl "Gold").
    + apply list_elem_of_here.
    + reflexivity.
Defined.

(** X17. When [render_scope_summary] returns, no score is a string; the
    score it shows is null exactly when every score is missing, and is else
    the mean in binary64 of the scores that are not missing: for scores that
    are integers, their arithmetic mean rounded once.  Its tier is null
    exactly when the maturity series has no value or the rounded mean of its
    values is none of 1, 2 and 3. *)
Theorem scope_summary_score (float_of_str : string -> option float)
    (array_sum : list float -> float)
    (score_series mat_series : list cell) (r : ScopeSummary) :
  render_scope_summary float_of_str array_sum score_series mat_series = Ok r ->
  existsb is_str score_series = false
  /\ (score r = None <-> dropna score_series = [])
  /\ (dropna score_series <> [] ->
        score r = Some (mean array_sum (omap to_float (dropna score_series))))
  /\ (forall zs, exact_on_integers array_sum ->
        holds_integers (dropna score_series) zs -> zs <> [] ->
        (foldr Z.add 0%Z (map Z.abs zs) < 2 ^ 53)%Z ->
        score r = Some (b64 (inject_Z (foldr Z.add 0%Z zs)
                             / inject_Z (Z.of_nat (length zs)))%Q))
  /\ (maturity r = None <->
      dropna mat_series = []
      \/ exists fs q, astype_float float_of_str (dropna mat_series) = Ok fs
           /\ mean array_sum fs = Finite q
           /\ py_round q ∉ [1%Z; 2%Z; 3%Z]).
Proof.
  unfold render_scope_summary. intros H.
  apply result_bind_Ok in H as (sc & Hsc & H).
  apply result_bind_Ok in H as (mt & Hmt & [= <-]). cbn [score maturity].
  assert (existsb is_str score_series = false
          /\ (sc = None <-> dropna score_series = [])
          /\ (dropna score_series <> [] ->
                sc = Some (mean array_sum (omap to_float (dropna score_series)))))
    as (H1 & H2 & H3).
  { rewrite <- (existsb_dropna_eq is_str) by done.
    destruct (dropna score_series) as [|c l] eqn:Hd; [by injection Hsc as <-|].
    unfold series_mean in Hsc. destruct (existsb is_str (c :: l)) eqn:Hstr; [done|].
    injection Hsc as <-. done. }
  split; [done|]. split; [done|]. split; [done|]. split.
  { intros zs Hsum Hzs Hne Hb. rewrite H3.
    - f_equal. rewrite <- (dropna_holds_integers _ _ Hzs) in Hzs.
      rewrite (mean_cells_integers array_sum _ zs); done.
    - intros E. rewrite E in Hzs. inversion Hzs. by subst. }
  destruct (dropna mat_series) as [|c l] eqn:Hd.
  { injection Hmt as <-. split; [by left | done]. }
  apply result_bind_Ok in Hmt as (fs & Hfs & Hmt).
  apply result_bind_Ok in Hmt as (z & Hz & [= <-]).
  destruct (mean array_sum fs) as [q| |] eqn:Hq; try done.
  injection Hz as <-. rewrite maturity_label_Int. split.
  - intros Hn. right. exists fs, q. split; [done|]. split; [done|].
    rewrite !elem_of_cons, elem_of_nil. intros [E|[E|[E|[]]]]; by rewrite E in Hn.
  - intros [?|(fs' & q' & Hf' & Hq' & Hn)]; [done|].
    rewrite Hfs in Hf'. injection Hf' as <-. rewrite Hq in Hq'. injection Hq' as <-.
    rewrite !elem_of_cons, elem_of_nil in Hn.
    destruct (py_round q) as [|[[p|p|]|[p|p|]|]|p]; try done; exfalso; apply Hn; auto.
Qed.

Lemma scope_summary_score_witness :
  exists r,
    render_scope_summary (fun _ => None) fsum
      [Int 80; NaN; Int 90; Float (70 # 1)] [Int 4; Int 4; Int 3] = Ok r
    /\ score r = Some (Finite (80 # 1))
    /\ maturity r = None.
Proof.
  exists {| score := Some (Finite (80 # 1)); maturity := None |}.
  assert (render_scope_summary (fun _ => None) fsum
            [Int 80; NaN; Int 90; Float (70 # 1)] [Int 4; Int 4; Int 3]
          = Ok {| score := Some (Finite (80 # 1)); maturity := None |}) as Hr
    by (by vm_compute).
  destruct (scope_summary_score _ _ _ _ _ Hr) as (_ & _ & _ & Hint & Hmat).
  split; [exact Hr|]. split.
  - rewrite (Hint [80; 90; 70]%Z fsum_exact); [by vm_compute | | done | by vm_compute].
    repeat constructor.
  - apply Hmat. right. eexists _, _. split; [reflexivity|].
    split; [vm_compute; reflexivity|]. rewrite !elem_of_cons, elem_of_nil.
    intros [H|[H|[H|[]]]]; vm_compute in H; discriminate H.
Defined.
(** ** The table of open-ended responses *)

Lemma select_all_present (df : DataFrame) (l : list string) :
  (forall c, c ∈ l -> c ∈ columns df) ->
  select df l = Ok {| columns := l; rows := rows df |}.
Proof.
  intros H. unfold select. destruct (List.find _ _) as [c|] eqn:Hf; [|done].
  apply find_some in Hf as [Hin Hb%negb_true_iff%bool_decide_eq_false].
  destruct Hb. by apply H, list_elem_of_In.
Qed.

(** X18. [show_open_ended_table] raises [KeyError] for a column the frame
    lacks; else it shows, under the county, subcounty and facility columns
    that the frame has and the column itself, exactly the rows that have a
    response, in their order, and writes a notice when no row has one. *)
Theorem open_ended_rows (df : DataFrame) (col : string) :
  (col ∉ columns df -> show_open_ended_table df col = Raise (KeyError col))
  /\ (col ∈ columns df ->
      show_open_ended_table df col
      = Ok (match List.filter (fun r => negb (isna (cell_at r col))) (rows df) with
            | [] => None
            | rs => Some {| columns := present df [COUNTY_COL; SUBCOUNTY_COL; FACILITY_COL]
                                       ++ [col];
                            rows := rs |}
            end)).
Proof.
  unfold show_open_ended_table. split; intros H.
  - by rewrite getitem_absent.
  - rewrite getitem_present by done. cbn [fmap result_fmap]. rewrite bind_Ok.
    unfold dropna. rewrite filter_map_comm.
    destruct (List.filter _ (rows df)) as [|r rs] eqn:Hf; [done|]. cbn [map].
    rewrite select_all_present, bind_Ok.
    + unfold dropna_subset. cbn [columns rows]. rewrite decide_True, Hf; [done|].
      apply elem_of_app. right. apply list_elem_of_here.
    + intros c [Hc%elem_of_present|Hc%list_elem_of_singleton]%elem_of_app.
      * by destruct Hc.
      * by subst c.
Qed.

Lemma open_ended_rows_witness :
  show_open_ended_table scope_frame "Comments" = Raise (KeyError "Comments")
  /\ show_open_ended_table scope_frame FACILITY_COL
     = Ok (match List.filter (fun r => negb (isna (cell_at r FACILITY_COL)))
                   (rows scope_frame) with
           | [] => None
           | rs => Some {| columns := present scope_frame
                                        [COUNTY_COL; SUBCOUNTY_COL; FACILITY_COL]
                                      ++ [FACILITY_COL];
                           rows := rs |}
           end).
Proof.
  split.
  - apply (proj1 (open_ended_rows scope_frame "Comments")). decide_closed.
  - apply (proj2 (open_ended_rows scope_frame FACILITY_COL)). decide_closed.
Defined.

(** ** Further on the facility table and the labels *)

(** X19. On a frame that has the columns of the theme, with numbers for
    scores, the facility table has no row exactly when no row of the frame
    has both a maturity value and a key without a missing cell (a county, a
    subcounty if the frame has the column, a facility, a tier); in
    particular on a frame without rows. *)
Theorem facility_table_empty (group_sum : list float -> float)
    (df : DataFrame) (theme s m : string) :
  dict_getitem THEME_SCORE_COLS theme = Ok s ->
  dict_getitem THEME_MATURITY_COLS theme = Ok m ->
  s ∈ columns df -> m ∈ columns df ->
  (forall r, r ∈ rows df -> is_str (cell_at r s) = false) ->
  exists fac,
    facility_maturity_table group_sum df theme = Ok fac
    /\ (rows fac = [] <->
        forall r, r ∈ rows df ->
          isna (cell_at r m) = true \/ key_complete (facility_key df m r) = false).
Proof.
  intros Hs Hm Hsi Hmi Hnum. eexists.
  split; [by apply (facility_maturity_table_rows group_sum df theme s m)|]. cbn [rows].
  unfold facility_group_keys, distinct_keys. split.
  - intros H%sort_by_nil r Hr.
    destruct (isna (cell_at r m)) eqn:Hna; [by left|]. right.
    destruct (key_complete (facility_key df m r)) eqn:Hc; [exfalso|done].
    assert (In r (List.filter (fun r => negb (isna (cell_at r m))
                                        && key_complete (facility_key df m r)) (rows df)))
      as Hin by (apply filter_In; rewrite <- list_elem_of_In, Hna, Hc; done).
    destruct (List.filter _ (rows df)); [done|]. discriminate H.
  - intros H. rewrite filter_none; [done|]. intros r Hr.
    destruct (H r Hr) as [-> | ->]; [done | apply andb_false_r].
Qed.

Lemma facility_table_empty_witness :
  exists fac,
    facility_maturity_table fsum empty_frame "Summary" = Ok fac /\ rows fac = [].
Proof.
  destruct (facility_table_empty fsum empty_frame "Summary"
              OVERALL_SCORE_COL OVERALL_MATURITY_COL) as (fac & H1 & H2).
  - reflexivity.
  - reflexivity.
  - decide_closed.
  - decide_closed.
  - by intros r ?%elem_of_nil.
  - exists fac. split; [exact H1|]. apply H2. by intros r ?%elem_of_nil.
Defined.


(** X20. Cleaning never lengthens a label. *)
Theorem clean_label_length (s t : string) :
  clean_label (Some s) = Some t -> (String.length t <= String.length s)%nat.
Proof.
  intros [= <-]. unfold PyStr.strip, PyStr.sub_spaces, PyStr.sub_tags.
  pose proof (thin_length _ _ (thin_rstrip (PyStr.lstrip
                (PyStr.sub_spaces_from false (PyStr.sub_tags_from false s))))).
  pose proof (thin_length _ _ (thin_lstrip
                (PyStr.sub_spaces_from false (PyStr.sub_tags_from false s)))).
  pose proof (thin_length _ _ (thin_sub_spaces false (PyStr.sub_tags_from false s))).
  pose proof (sub_tags_length false s). lia.
Qed.

Lemma clean_label_length_witness :
  (String.length "Fridge temp" <= String.length "  <b>Fridge</b>   temp ")%nat.
Proof. apply (clean_label_length "  <b>Fridge</b>   temp "). reflexivity. Defined.
